(** * Verification of [tools/verify_swash_reference.py]

    The script runs the Rust reference shaper and the MoonBit shaper on the
    same (font, text, size), parses the JSON each one prints and compares the
    two documents with [_cmp], a recursive comparison that is exact on
    structure and tolerant on numbers.  This file embeds the script
    function by function and proves the properties stated for it. *)

From Stdlib Require Import ZArith List Ascii String DecimalString.
From Stdlib Require Import Floats.SpecFloat.
From stdpp Require Import base decidable option list sets gmap sorting.

Set Warnings "-register-all".
Local Open Scope Z_scope.

(** * The model *)

(** ** Python strings

    A Python [str] is a sequence of Unicode code points. *)

Abbreviation pystr := (list N).

(** The code points of an ASCII literal of this file. *)
Definition u (s : string) : pystr :=
  List.map N_of_ascii (list_ascii_of_string s).

(** [str(i)] of a non-negative [int]: its decimal digits. *)
Definition str_of_nat (i : nat) : pystr :=
  u (NilZero.string_of_uint (Nat.to_uint i)).

(** Comparison of two [str] by [<=]: lexicographic on code points, which is
    the order [sorted] uses on a set of keys. *)
Fixpoint pystr_leb (s t : pystr) : bool :=
  match s, t with
  | [], _ => true
  | _ :: _, [] => false
  | c :: s', d :: t' =>
      if N.ltb c d then true
      else if N.eqb c d then pystr_leb s' t'
      else false
  end.

Definition pystr_le (s t : pystr) : Prop := pystr_leb s t = true.

#[global] Instance pystr_le_dec : RelDecision pystr_le.
Proof. intros s t. unfold pystr_le. apply _. Defined.

(** ** Python floats: IEEE 754 binary64 *)

Definition prec : Z := 53.
Definition emax : Z := 1024.

Abbreviation float := spec_float.

Definition float_sub : float -> float -> float := SFsub prec emax.
Definition float_abs : float -> float := SFabs.
Definition float_le : float -> float -> bool := SFleb.

Definition float_zero : float := S754_zero false.
Definition float_nan : float := S754_nan.

(** [f] is neither a NaN nor an infinity. *)
Definition is_finite (f : float) : bool :=
  match f with
  | S754_zero _ | S754_finite _ _ _ => true
  | S754_infinity _ | S754_nan => false
  end.

(** ** The document model: what [json.loads] returns

    [None], [bool], [int], [float], [str], [list] and [dict] with [str]
    keys.  A [dict] is kept as its items in insertion order; its keys are
    pairwise different, which a statement that needs it writes
    [NoDup (keys items)]. *)

Inductive doc : Type :=
| DNull
| DBool (b : bool)
| DInt (z : Z)
| DFloat (f : float)
| DStr (s : pystr)
| DList (l : list doc)
| DDict (items : list (pystr * doc)).

(** [d.keys()] and [d[k]]. *)
Definition keys {V : Type} (items : list (pystr * V)) : list pystr :=
  List.map fst items.

Fixpoint getitem {V : Type} (items : list (pystr * V)) (k : pystr)
  : option V :=
  match items with
  | [] => None
  | (k', v) :: rest => if decide (k' = k) then Some v else getitem rest k
  end.

(** [set(d.keys())] and [sorted(s)]. *)
Definition key_set {V : Type} (items : list (pystr * V)) : gset pystr :=
  list_to_set (keys items).

Definition sorted (s : gset pystr) : list pystr :=
  merge_sort pystr_le (elements s).

(** [isinstance(a, (int, float))].  Python's [bool] is a subclass of [int],
    so [True] and [False] pass this test. *)
Definition is_number (a : doc) : bool :=
  match a with
  | DBool _ | DInt _ | DFloat _ => true
  | _ => false
  end.

(** [a == b] at line 178.  Two dicts, two lists or two numbers never reach
    that line; of the pairs that do, only two [None] or two equal strings
    are equal: values of different JSON types always compare unequal. *)
Definition value_eq (a b : doc) : bool :=
  match a, b with
  | DNull, DNull => true
  | DStr s, DStr t => bool_decide (s = t)
  | _, _ => false
  end.

(** The second component of the pair [_cmp] returns.  The text of each
    f-string is kept as its template and the values that fill its holes. *)
Inductive message : Type :=
| Empty
| KeyMismatch (path : pystr) (ref moon : list pystr)
| LengthMismatch (path : pystr) (ref moon : nat)
| NumberMismatch (path : pystr) (ref moon : doc) (tol : float)
| ValueMismatch (path : pystr) (ref moon : doc).

(** ** Text written by the script

    Where an f-string formats a number or applies [repr], its text is kept
    as the template and the values that fill its holes. *)

Inductive producer : Type := Rust | Moon.

Inductive text : Type :=
| Str (s : pystr)
| Failed (what : pystr) (code : Z)
| MismatchFor (t : pystr) (size : float) (font : pystr)
| Line (msg : message)
| OkText (t : pystr)
| NoDefaultFont
| FontNotFound (font : pystr)
| WasmNotFound (p : pystr)
| SpectestNotFound (p : pystr)
| ReferenceNotFound
| ParseFailed (who : producer) (err raw : pystr).

(** ** Exceptions and results *)

(** The argument of [SystemExit]: an exit code, or a text that the
    interpreter prints on stderr before it exits with status 1. *)
Inductive exit_arg : Type :=
| ExitCode (code : Z)
| ExitText (t : text).

Inductive exn : Type :=
| OverflowError
| TypeError
| ValueError
| RecursionError
| KeyError (k : pystr)
| SystemExit (arg : exit_arg).

Inductive result (A : Type) : Type :=
| Return (a : A)
| Raise (e : exn).

Arguments Return {A} a.
Arguments Raise {A} e.

#[global] Instance result_ret : MRet result := @Return.
#[global] Instance result_bind : MBind result := fun A B k r =>
  match r with
  | Return a => k a
  | Raise e => Raise e
  end.

(** [float(z)] of a Python [int]: the nearest binary64 value, ties to even;
    [OverflowError] when that value is out of range. *)
Definition float_of_int (z : Z) : result float :=
  match binary_normalize prec emax z 0 false with
  | S754_infinity _ => Raise OverflowError
  | f => Return f
  end.

(** [float(a)] for a value that passed [is_number]. *)
Definition to_float (a : doc) : result float :=
  match a with
  | DBool b => float_of_int (Z.b2z b)
  | DInt z => float_of_int z
  | DFloat f => Return f
  | _ => Raise TypeError
  end.

Abbreviation verdict := (result (bool * message)).

(** [f"{path}.{k}"] and [f"{path}[{i}]"]. *)
Definition path_key (path k : pystr) : pystr := path ++ u "." ++ k.
Definition path_index (path : pystr) (i : nat) : pystr :=
  path ++ u "[" ++ str_of_nat i ++ u "]".

(** ** The comparator *)

(** The loop of lines 159-163: [fa] holds, for every key of [a], the
    comparison against the value [a[k]]. *)
Fixpoint cmp_keys (ks : list pystr)
    (fa : list (pystr * (doc -> float -> pystr -> verdict)))
    (b : list (pystr * doc)) (tol : float) (path : pystr) : verdict :=
  match ks with
  | [] => Return (true, Empty)
  | k :: ks' =>
      match getitem fa k, getitem b k with
      | Some cmp_ak, Some bk =>
          '(ok, msg) ← cmp_ak bk tol (path_key path k);
          if negb ok then Return (false, msg)
          else cmp_keys ks' fa b tol path
      | _, _ => Raise (KeyError k)
      end
  end.

(** The loop of lines 167-171 over [enumerate(zip(a, b))], for the
    comparison [cmp] of two elements. *)
Definition cmp_items (cmp : doc -> doc -> float -> pystr -> verdict)
    (tol : float) (path : pystr) : nat -> list doc -> list doc -> verdict :=
  fix loop (i : nat) (xs ys : list doc) {struct xs} : verdict :=
    match xs, ys with
    | x :: xs', y :: ys' =>
        '(ok, msg) ← cmp x y tol (path_index path i);
        if negb ok then Return (false, msg)
        else loop (S i) xs' ys'
    | _, _ => Return (true, Empty)
    end.

(** Lines 153-180.  The recursion is on the reference [a]: for two dicts,
    [prod_map id _cmp <$> da] pairs every key [k] of [a] with the
    comparison against [a[k]], which [cmp_keys] applies to [b[k]]. *)
Fixpoint _cmp (a : doc) : doc -> float -> pystr -> verdict :=
  fun b tol path =>
  match a, b with
  | DDict da, DDict db =>
      let ak := key_set da in
      let bk := key_set db in
      if bool_decide (ak <> bk) then
        Return (false, KeyMismatch path (sorted ak) (sorted bk))
      else
        cmp_keys (sorted ak) (prod_map id _cmp <$> da) db tol path
  | DList la, DList lb =>
      if negb (Nat.eqb (length la) (length lb)) then
        Return (false, LengthMismatch path (length la) (length lb))
      else cmp_items _cmp tol path 0%nat la lb
  | _, _ =>
      if is_number a && is_number b then
        af ← to_float a;
        bf ← to_float b;
        if float_le (float_abs (float_sub af bf)) tol then
          Return (true, Empty)
        else Return (false, NumberMismatch path a b tol)
      else if value_eq a b then Return (true, Empty)
      else Return (false, ValueMismatch path a b)
  end.

(** ** The comparator under the limits of the interpreter

    [_cmp] above is the comparator as its text reads.  The interpreter runs
    it within two limits that a document can reach.  Every nested call of
    [_cmp] takes a frame, and a call made when no frame is left raises
    [RecursionError]: [frames] counts the frames left, the recursion limit
    less the depth of the caller.  The f-strings of lines 177 and 180
    format the two values, [str(a)] of a number and [repr(a)] of any value,
    and formatting can raise: [ValueError] on an integer of more than
    [sys.get_int_max_str_digits()] digits, [RecursionError] inside [repr]
    of a value nested too deep.  [fmt v] is the exception that formatting
    [v] raises, if any.  The f-strings of lines 158 and 166 format a list
    of strings and two lengths, which always succeeds. *)

(** The f-string of a mismatch that shows [a], then [b]. *)
Definition format_values (fmt : doc -> option exn) (a b : doc)
    (msg : message) : verdict :=
  match fmt a with
  | Some e => Raise e
  | None =>
      match fmt b with
      | Some e => Raise e
      | None => Return (false, msg)
      end
  end.

(** Lines 153-180 again, with the frames left and the formatting. *)
Fixpoint _cmp_bounded (fmt : doc -> option exn) (a : doc)
  : nat -> doc -> float -> pystr -> verdict :=
  fun frames b tol path =>
  match frames with
  | O => Raise RecursionError
  | S frames' =>
      match a, b with
      | DDict da, DDict db =>
          let ak := key_set da in
          let bk := key_set db in
          if bool_decide (ak <> bk) then
            Return (false, KeyMismatch path (sorted ak) (sorted bk))
          else
            cmp_keys (sorted ak)
              (prod_map id (fun v => _cmp_bounded fmt v frames') <$> da)
              db tol path
      | DList la, DList lb =>
          if negb (Nat.eqb (length la) (length lb)) then
            Return (false, LengthMismatch path (length la) (length lb))
          else
            cmp_items (fun x => _cmp_bounded fmt x frames') tol path 0%nat
              la lb
      | _, _ =>
          if is_number a && is_number b then
            af ← to_float a;
            bf ← to_float b;
            if float_le (float_abs (float_sub af bf)) tol then
              Return (true, Empty)
            else format_values fmt a b (NumberMismatch path a b tol)
          else if value_eq a b then Return (true, Empty)
          else format_values fmt a b (ValueMismatch path a b)
      end
  end.

(** ** Whitespace of [str.strip()]

    The code points for which [str.isspace] holds. *)
Definition isspace (c : N) : bool :=
  ((9 <=? c) && (c <=? 13) || (28 <=? c) && (c <=? 32) ||
   (c =? 133) || (c =? 160) || (c =? 5760) ||
   (8192 <=? c) && (c <=? 8202) ||
   (c =? 8232) || (c =? 8233) || (c =? 8239) || (c =? 8287) ||
   (c =? 12288))%N.

Fixpoint lstrip (s : pystr) : pystr :=
  match s with
  | c :: s' => if isspace c then lstrip s' else s
  | [] => []
  end.

Definition rstrip (s : pystr) : pystr := reverse (lstrip (reverse s)).

Definition strip (s : pystr) : pystr := lstrip (rstrip s).

(** The string ["\n"], and [s.endswith("\n")]. *)
Definition nl : pystr := [10%N].

Definition ends_with_newline (s : pystr) : bool :=
  match last s with
  | Some c => (c =? 10)%N
  | None => false
  end.

(** ** Processes, files and the trace of the run *)

Record CompletedProcess : Type := {
  returncode : Z;
  stdout : pystr;
  stderr : pystr
}.

(** The three command lines the script runs: [moon build ...] of line 96,
    [wasmtime run ... font text size] of lines 109-120 and
    [cargo run ... -- font text size] of lines 134-146. *)
Inductive command : Type :=
| MoonBuild
| WasmtimeRun (font_path text : pystr) (size : float)
| CargoRun (font_path text : pystr) (size : float).

Inductive event : Type :=
| Spawn (cmd : command)
| Stdout (t : text)
| Stderr (t : text)
| Mkdir (p : pystr)
| Copy2 (src dst : pystr)
| Copyfile (src dst : pystr).

(** What lies outside the script.  A process and the file system may answer
    differently as the run goes on, so both see the trace so far.
    [path_name] is [PurePath.name]; [json_loads] returns the document, or
    the text of the exception it raised. *)
Record World : Type := {
  ROOT : pystr;
  run_process : list event -> command -> CompletedProcess;
  path_exists : list event -> pystr -> bool;
  copy2_denied : list event -> bool;
  path_name : pystr -> pystr;
  json_loads : pystr -> pystr + doc
}.

(** [argparse]'s namespace. *)
Record Args : Type := {
  font : option pystr;
  text_args : option (list pystr);
  size : float;
  tol : float;
  dump : bool
}.

(** A statement of the script: from the trace so far to the new trace and
    either a value or the exception raised. *)
Definition io (A : Type) : Type := list event -> list event * result A.

#[global] Instance io_ret : MRet io := fun A a h => (h, Return a).
#[global] Instance io_bind : MBind io := fun A B k m h =>
  match m h with
  | (h', Return a) => k a h'
  | (h', Raise e) => (h', Raise e)
  end.

Definition raise {A : Type} (e : exn) : io A := fun h => (h, Raise e).
Definition emit (e : event) : io () := fun h => (h ++ [e], Return ()).
Definition lift {A : Type} (r : result A) : io A := fun h => (h, r).

(** [for x in xs: body(x)] *)
Fixpoint for_each {A : Type} (xs : list A) (body : A -> io ()) : io () :=
  match xs with
  | [] => mret ()
  | x :: xs' => body x;; for_each xs' body
  end.

(** [p / q] for a relative [q]. *)
Definition path_join (p q : pystr) : pystr := p ++ u "/" ++ q.

(** [p.relative_to(root)] *)
Fixpoint drop_prefix (pre s : pystr) : option pystr :=
  match pre, s with
  | [], _ => Some s
  | c :: pre', d :: s' => if (c =? d)%N then drop_prefix pre' s' else None
  | _ :: _, [] => None
  end.

Definition relative_to (p root : pystr) : result pystr :=
  match drop_prefix (root ++ u "/") p with
  | Some q => Return q
  | None => Raise ValueError
  end.

(** The exit status of the interpreter: 0 when [main] returns, the code of
    [SystemExit(code)], and 1 after [SystemExit(text)] or an exception that
    nothing catches.  This is the value handed to the operating system,
    which keeps its low eight bits. *)
Definition exit_status {A : Type} (r : result A) : Z :=
  match r with
  | Return _ => 0
  | Raise (SystemExit (ExitCode code)) => code
  | Raise _ => 1
  end.

(** The status of the process as its parent reads it: the low eight bits
    of the value above ([exit] keeps [status & 0xFF]), for a value in the
    range of a C [int], which every return code of a subprocess is. *)
Definition process_status {A : Type} (r : result A) : Z :=
  exit_status r mod 256.

(** ** The script *)

Section script.
Variable w : World.

Definition SWASH_REFERENCE_DIR : pystr :=
  path_join (ROOT w) (u "swash-reference").
Definition MOON_DUMP_DIR : pystr :=
  path_join (path_join (ROOT w) (u "tools")) (u "moon_swash_dump").
Definition MOON_DUMP_WASM : pystr :=
  path_join MOON_DUMP_DIR (u "target/wasm/release/build/moon_swash_dump.wasm").
Definition SPECTEST_WASM : pystr :=
  path_join MOON_DUMP_DIR (u "spectest.wasm").
Definition TMP_DIR : pystr := path_join (ROOT w) (u ".tmp").
Definition TMP_FONTS_DIR : pystr := path_join TMP_DIR (u "fonts").

Definition exists_ (p : pystr) : io bool :=
  fun h => (h, Return (path_exists w h p)).

Definition _run (cmd : command) : io CompletedProcess :=
  fun h => (h ++ [Spawn cmd], Return (run_process w h cmd)).

(** Lines 53-57 and 58-62: one captured stream, under its title. *)
Definition write_stream (title s : pystr) : io () :=
  if bool_decide (s = []) then mret ()
  else
    emit (Stderr (Str title));;
    emit (Stderr (Str s));;
    if negb (ends_with_newline s) then emit (Stderr (Str nl))
    else mret ().

Definition _require_ok (p : CompletedProcess) (what : pystr) : io () :=
  if (returncode p =? 0)%Z then mret ()
  else
    emit (Stderr (Failed what (returncode p)));;
    write_stream (u "stdout:" ++ nl) (stdout p);;
    write_stream (u "stderr:" ++ nl) (stderr p);;
    raise (SystemExit (ExitCode (returncode p))).

Definition _pick_default_font : io pystr :=
  let candidates :=
    [u "/System/Library/Fonts/Supplemental/Arial.ttf";
     u "/System/Library/Fonts/Supplemental/Times New Roman.ttf";
     u "/System/Library/Fonts/Geneva.ttf"] in
  (fix loop (ps : list pystr) : io pystr :=
     match ps with
     | p :: ps' =>
         found ← exists_ p;
         if found : bool then mret p else loop ps'
     | [] => raise (SystemExit (ExitText NoDefaultFont))
     end) candidates.

Definition _prepare_font (font : pystr) : io pystr :=
  emit (Mkdir TMP_FONTS_DIR);;
  let dst := path_join TMP_FONTS_DIR (path_name w font) in
  found ← exists_ dst;
  if found : bool then mret dst
  else
    denied ← (fun h => (h ++ [Copy2 font dst], Return (copy2_denied w h)));
    (if denied : bool then emit (Copyfile font dst) else mret ());;
    mret dst.

Definition _build_moon_dump : io () :=
  p ← _run MoonBuild;
  _require_ok p (u "moon build (tools/moon_swash_dump)");;
  wasm ← exists_ MOON_DUMP_WASM;
  if negb wasm then raise (SystemExit (ExitText (WasmNotFound MOON_DUMP_WASM)))
  else
    spectest ← exists_ SPECTEST_WASM;
    if negb spectest then
      raise (SystemExit (ExitText (SpectestNotFound SPECTEST_WASM)))
    else mret ().

Definition _run_moon_dump (font_path text : pystr) (size : float)
  : io pystr :=
  p ← _run (WasmtimeRun font_path text size);
  _require_ok p (u "wasmtime run (moon_swash_dump)");;
  mret (strip (stdout p)).

Definition _run_rust_dump (font_path text : pystr) (size : float)
  : io pystr :=
  manifest ← exists_ (path_join SWASH_REFERENCE_DIR (u "Cargo.toml"));
  if negb manifest then raise (SystemExit (ExitText ReferenceNotFound))
  else
    p ← _run (CargoRun font_path text size);
    _require_ok p (u "cargo run (swash-reference dump_json)");;
    mret (strip (stdout p)).

(** [json.loads(out)] under the [try] of lines 207-214. *)
Definition parse (who : producer) (out : pystr) : io doc :=
  match json_loads w out with
  | inr d => mret d
  | inl e => raise (SystemExit (ExitText (ParseFailed who e out)))
  end.

(** The body of the loop of [main], lines 205-226, for the text [t]. *)
Definition case (args : Args) (font font_rel t : pystr) : io () :=
  rust_out ← _run_rust_dump font_rel t (size args);
  moon_out ← _run_moon_dump font_rel t (size args);
  rust_json ← parse Rust rust_out;
  moon_json ← parse Moon moon_out;
  '(ok, msg) ← lift (_cmp rust_json moon_json (tol args) (u "$"));
  if negb ok then
    emit (Stderr (MismatchFor t (size args) font));;
    emit (Stderr (Line msg));;
    (if dump args then
       emit (Stderr (Str (nl ++ u "ref:" ++ nl)));;
       emit (Stderr (Str (rust_out ++ nl)));;
       emit (Stderr (Str (nl ++ u "moon:" ++ nl)));;
       emit (Stderr (Str (moon_out ++ nl)))
     else mret ());;
    raise (SystemExit (ExitCode 1))
  else emit (Stdout (OkText t)).

(** Lines 192-200 of [main]: the font, its path relative to the root and
    the texts. *)
Definition prologue (args : Args) : io (pystr * pystr * list pystr) :=
  font ← match font args with
         | Some f => mret f
         | None => _pick_default_font
         end;
  found ← exists_ font;
  if negb found then raise (SystemExit (ExitText (FontNotFound font)))
  else
    font_local ← _prepare_font font;
    font_rel ← lift (relative_to font_local (ROOT w));
    let texts :=
      match text_args args with
      | Some (t :: ts) => t :: ts
      | _ => [u "abc"; u "Hello, world!"; u "AV"]
      end in
    mret (font, font_rel, texts).

Definition main (args : Args) : io () :=
  '(font, font_rel, texts) ← prologue args;
  _build_moon_dump;;
  for_each texts (case args font font_rel).

End script.

(** * Vocabulary of the statements *)

(** ** On the comparator *)

(** Both tests [isinstance(a, dict) and isinstance(b, dict)] and
    [isinstance(a, list) and isinstance(b, list)] fail. *)
Definition both_dicts (a b : doc) : bool :=
  match a, b with DDict _, DDict _ => true | _, _ => false end.
Definition both_lists (a b : doc) : bool :=
  match a, b with DList _, DList _ => true | _, _ => false end.

(** A key passes when both dicts hold it and the two values compare
    equal at the extended path. *)
Definition key_passes (da db : list (pystr * doc)) tol path (k : pystr)
  : Prop :=
  exists x y, getitem da k = Some x /\ getitem db k = Some y /\
    _cmp x y tol (path_key path k) = Return (true, Empty).

(** A tolerance is non-negative when [0.0 <= tol] holds; a NaN is not. *)
Definition nonneg (tol : float) : Prop := float_le float_zero tol = true.

(** [float(a)] returns. *)
Definition has_float (a : doc) : bool :=
  match to_float a with Return _ => true | Raise _ => false end.

(** [float(a)] returns a finite value. *)
Definition has_finite_float (a : doc) : bool :=
  match to_float a with Return f => is_finite f | Raise _ => false end.

(** Every [bool], [int] and [float] in the tree satisfies [p]. *)
Fixpoint all_numbers (p : doc -> bool) (d : doc) : bool :=
  match d with
  | DNull | DStr _ => true
  | DBool _ | DInt _ | DFloat _ => p d
  | DList l => forallb (all_numbers p) l
  | DDict items => forallb (fun kv => all_numbers p (snd kv)) items
  end.

(** Every integer of the tree is within the range of binary64. *)
Definition ints_in_range (d : doc) : bool := all_numbers has_float d.

(** Every number of the tree has a finite binary64 value: no NaN, no
    infinity, no integer out of range. *)
Definition finite_numbers (d : doc) : bool := all_numbers has_finite_float d.

(** What a call of the comparator can end with: a verdict, or the
    [OverflowError] of [float()] on an integer of [a] or [b] that is out
    of range. *)
Definition verdict_or_overflow (in_range : bool) (r : verdict) : Prop :=
  match r with
  | Return _ => True
  | Raise e => e = OverflowError /\ in_range = false
  end.

(** The nesting of a document, counted in calls of the comparator: 1 for
    a leaf and for an empty container, one more than its deepest element
    for a list or a dict. *)
Fixpoint depth (d : doc) : nat :=
  match d with
  | DList l => S (foldr (fun x n => Nat.max (depth x) n) 0%nat l)
  | DDict items =>
      S (foldr (fun kv n => Nat.max (depth (snd kv)) n) 0%nat items)
  | _ => 1%nat
  end.

(** Formatting raises on no value of the tree, leaf or container. *)
Fixpoint formats (fmt : doc -> option exn) (d : doc) : bool :=
  bool_decide (fmt d = None) &&
  match d with
  | DList l => forallb (formats fmt) l
  | DDict items => forallb (fun kv => formats fmt (snd kv)) items
  | _ => true
  end.

(** A call of the bounded comparator ended at a limit of the interpreter:
    with [RecursionError] where both documents are nested deeper than the
    frames left, or with the exception of the formatting of one of their
    values. *)
Definition limit_reached (fmt : doc -> option exn) (frames : nat)
    (a b : doc) (r : verdict) : Prop :=
  (r = Raise RecursionError /\ (frames < depth a)%nat /\
   (frames < depth b)%nat)
  \/ (exists e, r = Raise e /\ (exists v, fmt v = Some e) /\
        formats fmt a && formats fmt b = false).

(** The formatting of CPython 3.11 and later at its default setting, for
    values whose nesting [repr] can follow: an integer of more than
    [max_digits] decimal digits raises [ValueError]. *)
Definition int_max_str_digits : Z := 4300.

Definition digits_error (max_digits : Z) (v : doc) : option exn :=
  if all_numbers
       (fun x => match x with
                 | DInt z => Z.abs z <? 10 ^ max_digits
                 | _ => true
                 end) v
  then None else Some ValueError.

(** Formatting that never raises. *)
Definition no_format_error (v : doc) : option exn := None.

(** The six kinds of the JSON data model. *)
Inductive kind : Type :=
| KNull | KBool | KNumber | KString | KSequence | KMapping.

Definition kind_of (a : doc) : kind :=
  match a with
  | DNull => KNull
  | DBool _ => KBool
  | DInt _ | DFloat _ => KNumber
  | DStr _ => KString
  | DList _ => KSequence
  | DDict _ => KMapping
  end.

(** ** On the run of the script *)

(** The stderr writes of lines 53-62 for one captured stream. *)
Definition stream_report (title s : pystr) : list event :=
  if bool_decide (s = []) then []
  else [Stderr (Str title); Stderr (Str s)] ++
       (if ends_with_newline s then [] else [Stderr (Str nl)]).

(** The stderr writes of [_require_ok] for a process that failed. *)
Definition failure_report (p : CompletedProcess) (what : pystr)
  : list event :=
  [Stderr (Failed what (returncode p))] ++
  stream_report (u "stdout:" ++ nl) (stdout p) ++
  stream_report (u "stderr:" ++ nl) (stderr p).

(** The trace of a case that passes: the reference producer, the
    candidate producer, one line on stdout. *)
Definition passing_trace (args : Args) (font_rel t : pystr) : list event :=
  [Spawn (CargoRun font_rel t (size args));
   Spawn (WasmtimeRun font_rel t (size args));
   Stdout (OkText t)].

(** An event that the failing case for the text [t] may leave: a run of
    one of the two producers on [t], or a write on stderr. *)
Definition failing_case_event (args : Args) (font_rel t : pystr)
    (ev : event) : Prop :=
  match ev with
  | Spawn cmd =>
      cmd = CargoRun font_rel t (size args) \/
      cmd = WasmtimeRun font_rel t (size args)
  | Stderr _ => True
  | _ => False
  end.

(** The event runs a producer. *)
Definition is_producer_run (ev : event) : bool :=
  match ev with
  | Spawn (CargoRun _ _ _) | Spawn (WasmtimeRun _ _ _) => true
  | _ => false
  end.

(** The stderr writes of lines 220-224 under [--dump]. *)
Definition dump_report (args : Args) (rust_out moon_out : pystr)
  : list event :=
  if dump args then
    [Stderr (Str (nl ++ u "ref:" ++ nl)); Stderr (Str (rust_out ++ nl));
     Stderr (Str (nl ++ u "moon:" ++ nl)); Stderr (Str (moon_out ++ nl))]
  else [].

(** The texts written on stdout, in order. *)
Definition written_stdout (tr : list event) : list text :=
  omap (fun ev => match ev with Stdout t => Some t | _ => None end) tr.

(** Both producers run on the text [t] from the trace [h] and exit with
    status 0; [rust_out] and [moon_out] are what the two runs return. *)
Definition producers_ok (w : World) (args : Args) (font_rel t : pystr)
    (h : list event) (rust_out moon_out : pystr) : Prop :=
  let rust := run_process w h (CargoRun font_rel t (size args)) in
  let moon :=
    run_process w (h ++ [Spawn (CargoRun font_rel t (size args))])
      (WasmtimeRun font_rel t (size args)) in
  path_exists w h (path_join (SWASH_REFERENCE_DIR w) (u "Cargo.toml")) = true
  /\ returncode rust = 0 /\ returncode moon = 0
  /\ rust_out = strip (stdout rust) /\ moon_out = strip (stdout moon).

(** The case for [t] matches within the tolerance. *)
Definition case_matches (w : World) (args : Args) (font_rel t : pystr)
    (h : list event) : Prop :=
  exists rust_out moon_out r m,
    producers_ok w args font_rel t h rust_out moon_out /\
    json_loads w rust_out = inr r /\ json_loads w moon_out = inr m /\
    _cmp r m (tol args) (u "$") = Return (true, Empty).

(** The two documents parse and the comparator reports the mismatch
    [msg]. *)
Definition case_mismatches (w : World) (args : Args) (font_rel t : pystr)
    (h : list event) (msg : message) : Prop :=
  exists rust_out moon_out r m,
    producers_ok w args font_rel t h rust_out moon_out /\
    json_loads w rust_out = inr r /\ json_loads w moon_out = inr m /\
    _cmp r m (tol args) (u "$") = Return (false, msg).

(** One of the two outputs does not parse. *)
Definition case_parse_fails (w : World) (args : Args) (font_rel t : pystr)
    (h : list event) : Prop :=
  exists rust_out moon_out,
    producers_ok w args font_rel t h rust_out moon_out /\
    ((exists err, json_loads w rust_out = inl err) \/
     (exists err, json_loads w moon_out = inl err)).

(** Every case of the suite matches, each from the trace that the cases
    before it leave. *)
Fixpoint suite_matches (w : World) (args : Args) (font_rel : pystr)
    (texts : list pystr) (h : list event) : Prop :=
  match texts with
  | [] => True
  | t :: texts' =>
      case_matches w args font_rel t h /\
      suite_matches w args font_rel texts'
        (h ++ passing_trace args font_rel t)
  end.

(** * Vocabulary of the further properties *)

(** The path a mismatch message starts with. *)
Definition message_path (m : message) : option pystr :=
  match m with
  | Empty => None
  | KeyMismatch path _ _ | LengthMismatch path _ _
  | NumberMismatch path _ _ _ | ValueMismatch path _ _ => Some path
  end.

(** The flag of a verdict, without its message. *)
Definition verdict_flag (r : verdict) : result bool :=
  match r with
  | Return (ok, _) => Return ok
  | Raise e => Raise e
  end.

(** Two documents agree within the tolerance: numbers whose float64 values
    differ by at most [tol], null with null, a string with the same string,
    lists of the same length that agree position by position, dicts with
    the same key set that agree key by key. *)
Inductive close (tol : float) : doc -> doc -> Prop :=
| close_numbers (a b : doc) (af bf : float) :
    is_number a = true -> is_number b = true ->
    to_float a = Return af -> to_float b = Return bf ->
    float_le (float_abs (float_sub af bf)) tol = true ->
    close tol a b
| close_null : close tol DNull DNull
| close_str (s : pystr) : close tol (DStr s) (DStr s)
| close_list (la lb : list doc) :
    Forall2 (close tol) la lb -> close tol (DList la) (DList lb)
| close_dict (da db : list (pystr * doc)) :
    key_set da = key_set db ->
    (forall k x y, getitem da k = Some x -> getitem db k = Some y ->
                   close tol x y) ->
    close tol (DDict da) (DDict db).

(** The commands started, in order. *)
Definition spawned (tr : list event) : list command :=
  omap (fun ev => match ev with Spawn cmd => Some cmd | _ => None end) tr.

(** The texts written on stderr, in order. *)
Definition written_stderr (tr : list event) : list text :=
  omap (fun ev => match ev with Stderr t => Some t | _ => None end) tr.

(** The raw strings among the texts, joined. *)
Definition joined (ts : list text) : pystr :=
  flat_map (fun t => match t with Str s => s | _ => [] end) ts.

(** The fonts [_pick_default_font] probes, in its order. *)
Definition default_fonts : list pystr :=
  [u "/System/Library/Fonts/Supplemental/Arial.ttf";
   u "/System/Library/Fonts/Supplemental/Times New Roman.ttf";
   u "/System/Library/Fonts/Geneva.ttf"].

(** The texts [main] goes through: those of [--text], or the three
    defaults. *)
Definition texts_of (args : Args) : list pystr :=
  match text_args args with
  | Some (t :: ts) => t :: ts
  | _ => [u "abc"; u "Hello, world!"; u "AV"]
  end.

(** Where a font is staged, relative to the root. *)
Definition staged (w : World) (font : pystr) : pystr :=
  u ".tmp/fonts/" ++ path_name w font.

(** The two producer runs of one text: the reference, then the
    candidate, on the same font path, text and size. *)
Definition runs_of (args : Args) (font_rel t : pystr) : list command :=
  [CargoRun font_rel t (size args); WasmtimeRun font_rel t (size args)].

(** All the commands of a complete run: the build, then the producer runs
    of every text in order. *)
Definition planned_runs (args : Args) (font_rel : pystr)
    (texts : list pystr) : list command :=
  MoonBuild :: flat_map (runs_of args font_rel) texts.

(** The arguments with the [--dump] flag set to [b]. *)
Definition with_dump (b : bool) (args : Args) : Args :=
  {| font := font args; text_args := text_args args; size := size args;
     tol := tol args; dump := b |}.

(** * Values of the examples *)

(** Some binary64 constants: [1.0], [0.02] (the default [--tol]) and
    [2.0]. *)
Definition f_one : float := S754_finite false 4503599627370496 (-52).
Definition f_0_02 : float := S754_finite false 5764607523034235 (-58).
Definition f_two : float := S754_finite false 4503599627370496 (-51).

(** The dicts of the examples: [{"a":1,"b":2}], the same items inserted in
    the other order, [{"a":1,"c":2}], and a pair that differs first at
    key ["b"] and again at key ["c"]. *)
Definition d_ab : list (pystr * doc) := [(u "a", DInt 1); (u "b", DInt 2)].
Definition d_ba : list (pystr * doc) := [(u "b", DInt 2); (u "a", DInt 1)].
Definition d_ac : list (pystr * doc) := [(u "a", DInt 1); (u "c", DInt 2)].
Definition d_abc : list (pystr * doc) :=
  [(u "c", DInt 3); (u "a", DInt 1); (u "b", DInt 2)].
Definition d_abc' : list (pystr * doc) :=
  [(u "a", DInt 1); (u "b", DInt 5); (u "c", DStr (u "x"))].

(** The document of the spec's scenarios, [{"glyphs":[{"id":5,"x":0.0}]}],
    with a few more leaves. *)
Definition sample : doc :=
  DDict [(u "glyphs",
          DList [DDict [(u "id", DInt 5); (u "x", DFloat float_zero);
                        (u "rtl", DBool false); (u "name", DStr (u "a"));
                        (u "note", DNull)]])].

(** The candidates of the end-to-end scenarios,
    [{"glyphs":[{"id":5,"x":0.1}]}] and [{"glyphs":[{"id":5,"x":0.019}]}],
    and their reference [{"glyphs":[{"id":5,"x":0.0}]}]. *)
Definition f_0_1 : float := S754_finite false 7205759403792794 (-56).
Definition sample_off : doc :=
  DDict [(u "glyphs",
          DList [DDict [(u "id", DInt 5); (u "x", DFloat f_0_1)]])].
Definition f_0_019 : float := S754_finite false 5476377146882523 (-58).
Definition sample_near : doc :=
  DDict [(u "glyphs",
          DList [DDict [(u "id", DInt 5); (u "x", DFloat f_0_019)]])].
Definition sample_ref : doc :=
  DDict [(u "glyphs",
          DList [DDict [(u "id", DInt 5); (u "x", DFloat float_zero)]])].

(** A process that exits with status 0 after printing [out]. *)
Definition quiet (out : pystr) : CompletedProcess :=
  {| returncode := 0; stdout := out; stderr := [] |}.

(** A parser for the two documents [1] and [2]. *)
Definition toy_loads (s : pystr) : pystr + doc :=
  if bool_decide (s = u "1") then inr (DInt 1)
  else if bool_decide (s = u "2") then inr (DInt 2)
  else inl (u "Expecting value").

(** A small world: both producers print [ 1] and a newline, except the
    candidate on the text ["b"], which prints [2]; every path exists; the
    parser knows the documents [1] and [2]. *)
Definition toy_world (build : CompletedProcess) : World :=
  {| ROOT := u "/repo";
     run_process := fun _ cmd =>
       match cmd with
       | MoonBuild => build
       | CargoRun _ _ _ => quiet (u " 1" ++ nl)
       | WasmtimeRun _ t _ =>
           if bool_decide (t = u "b") then quiet (u "2")
           else quiet (u " 1" ++ nl)
       end;
     path_exists := fun _ _ => true;
     copy2_denied := fun _ => false;
     path_name := fun _ => u "font.ttf";
     json_loads := toy_loads |}.

Definition f_14 : float := S754_finite false 7881299347898368 (-49).

Definition toy_args (texts : list pystr) : Args :=
  {| font := Some (u "/fonts/font.ttf");
     text_args := Some texts;
     size := f_14;
     tol := f_0_02;
     dump := false |}.

(** The suite of the spec's example: three texts, of which ["b"]
    mismatches; the traces the run goes through. *)
Definition toy_texts : list pystr := [u "a"; u "b"; u "c"].
Definition toy_font_rel : pystr := u ".tmp/fonts/font.ttf".
Definition toy_h0 : list event := [Mkdir (u "/repo/.tmp/fonts")].
Definition toy_hb : list event := toy_h0 ++ [Spawn MoonBuild].
Definition toy_h1 : list event :=
  toy_hb ++ passing_trace (toy_args toy_texts) toy_font_rel (u "a").
Definition toy_h2 : list event :=
  toy_h1 ++
  [Spawn (CargoRun toy_font_rel (u "b") f_14);
   Spawn (WasmtimeRun toy_font_rel (u "b") f_14);
   Stderr (MismatchFor (u "b") f_14 (u "/fonts/font.ttf"));
   Stderr (Line (NumberMismatch (u "$") (DInt 1) (DInt 2) f_0_02))].

(** A build that fails with status 2. *)
Definition failed_build : CompletedProcess :=
  {| returncode := 2; stdout := []; stderr := u "error: build failed" |}.

(** A build killed by signal 9: [subprocess] gives the return code -9. *)
Definition killed_build : CompletedProcess :=
  {| returncode := -9; stdout := []; stderr := [] |}.

(** A list nested [n] deep around [null]. *)
Definition nested (n : nat) : doc := Nat.iter n (fun d => DList [d]) DNull.

(** ** Induction on documents *)

Section doc_induction.
Variable P : doc -> Prop.
Hypothesis Hnull : P DNull.
Hypothesis Hbool : forall b, P (DBool b).
Hypothesis Hint : forall z, P (DInt z).
Hypothesis Hfloat : forall f, P (DFloat f).
Hypothesis Hstr : forall s, P (DStr s).
Hypothesis Hlist : forall l, Forall P l -> P (DList l).
Hypothesis Hdict :
  forall items, Forall (fun kv => P (snd kv)) items -> P (DDict items).

Fixpoint doc_induction (d : doc) : P d :=
  match d with
  | DNull => Hnull
  | DBool b => Hbool b
  | DInt z => Hint z
  | DFloat f => Hfloat f
  | DStr s => Hstr s
  | DList l =>
      Hlist l
        ((fix all (l : list doc) : Forall P l :=
            match l with
            | [] => @List.Forall_nil _ P
            | x :: l' => @List.Forall_cons _ P x l' (doc_induction x) (all l')
            end) l)
  | DDict items =>
      Hdict items
        ((fix all (l : list (pystr * doc))
            : Forall (fun kv => P (snd kv)) l :=
            match l with
            | [] => @List.Forall_nil _ _
            | kv :: l' =>
                @List.Forall_cons _ (fun kv => P (snd kv)) kv l'
                  (doc_induction (snd kv)) (all l')
            end) items)
  end.
End doc_induction.

(** * Properties *)

(** ** The order on keys *)

Lemma pystr_leb_total (s t : pystr) :
  pystr_leb s t = true \/ pystr_leb t s = true.
Proof.
  revert t. induction s as [|c s IH]; intros [|d t]; simpl; auto.
  destruct (N.ltb_spec c d) as [Hcd|Hcd]; [auto|].
  destruct (N.ltb_spec d c) as [Hdc|Hdc]; [auto|].
  assert (c = d) as -> by lia.
  rewrite N.eqb_refl. apply IH.
Qed.

Lemma pystr_leb_trans (s t r : pystr) :
  pystr_leb s t = true -> pystr_leb t r = true -> pystr_leb s r = true.
Proof.
  revert t r. induction s as [|c s IH]; intros [|d t] [|e r]; simpl; auto;
    try discriminate.
  destruct (N.ltb_spec c d) as [Hcd|Hcd].
  - intros _. destruct (N.ltb_spec d e) as [Hde|Hde].
    + intros _. destruct (N.ltb_spec c e); [done|lia].
    + destruct (N.eqb_spec d e) as [->|]; [|discriminate].
      intros _. destruct (N.ltb_spec c e); [done|lia].
  - destruct (N.eqb_spec c d) as [->|]; [|discriminate].
    intros Hst. destruct (N.ltb_spec d e) as [Hde|Hde]; [done|].
    destruct (N.eqb_spec d e) as [->|]; [|discriminate].
    intros Htr. eapply IH; eauto.
Qed.

Lemma pystr_leb_antisym (s t : pystr) :
  pystr_leb s t = true -> pystr_leb t s = true -> s = t.
Proof.
  revert t. induction s as [|c s IH]; intros [|d t]; simpl; auto;
    try discriminate.
  destruct (N.ltb_spec c d) as [Hcd|Hcd].
  - intros _. destruct (N.ltb_spec d c); [lia|].
    destruct (N.eqb_spec d c); [lia|discriminate].
  - destruct (N.eqb_spec c d) as [->|]; [|discriminate].
    rewrite N.ltb_irrefl, N.eqb_refl. intros H1 H2. f_equal. by apply IH.
Qed.

#[global] Instance pystr_le_total : Total pystr_le.
Proof. intros s t. apply pystr_leb_total. Qed.

#[global] Instance pystr_le_trans : Transitive pystr_le.
Proof. intros s t r. apply pystr_leb_trans. Qed.

#[global] Instance pystr_le_antisym : AntiSymm (=) pystr_le.
Proof. intros s t. apply pystr_leb_antisym. Qed.

(** [sorted(s)] lists exactly the elements of [s], once each, in
    increasing order. *)
Lemma elem_of_sorted (s : gset pystr) (k : pystr) : k ∈ sorted s <-> k ∈ s.
Proof.
  unfold sorted. rewrite merge_sort_Permutation. apply elem_of_elements.
Qed.

Lemma NoDup_sorted (s : gset pystr) : NoDup (sorted s).
Proof.
  unfold sorted. rewrite merge_sort_Permutation. apply NoDup_elements.
Qed.

Lemma StronglySorted_sorted (s : gset pystr) :
  StronglySorted pystr_le (sorted s).
Proof. apply StronglySorted_merge_sort; apply _. Qed.

(** ** Items of a dict *)

Lemma elem_of_key_set {V : Type} (items : list (pystr * V)) (k : pystr) :
  k ∈ key_set items <-> k ∈ keys items.
Proof. unfold key_set. apply elem_of_list_to_set. Qed.

Lemma getitem_Some_elem_of {V : Type} (items : list (pystr * V)) k v :
  getitem items k = Some v -> (k, v) ∈ items.
Proof.
  induction items as [|[k' v'] rest IH]; simpl; [done|].
  destruct (decide (k' = k)) as [->|].
  - intros [= ->]. left.
  - intros H. right. auto.
Qed.

Lemma getitem_is_Some {V : Type} (items : list (pystr * V)) k :
  k ∈ keys items -> is_Some (getitem items k).
Proof.
  unfold keys. induction items as [|[k' v'] rest IH]; simpl.
  - intros H. by apply elem_of_nil in H.
  - intros H. destruct (decide (k' = k)) as [->|Hne]; [eauto|].
    apply elem_of_cons in H as [H|H]; [congruence|auto].
Qed.

Lemma getitem_None {V : Type} (items : list (pystr * V)) k :
  k ∉ keys items -> getitem items k = None.
Proof.
  unfold keys. induction items as [|[k' v'] rest IH]; simpl; [done|].
  intros H. apply not_elem_of_cons in H as [Hne Hrest].
  destruct (decide (k' = k)); [congruence|auto].
Qed.

Lemma getitem_elem_of_NoDup {V : Type} (items : list (pystr * V)) k v :
  NoDup (keys items) -> (k, v) ∈ items -> getitem items k = Some v.
Proof.
  unfold keys. induction items as [|[k' v'] rest IH]; simpl.
  - intros _ H. by apply elem_of_nil in H.
  - intros Hnd H. apply NoDup_cons in Hnd as [Hnotin Hnd].
    apply elem_of_cons in H as [[= -> ->]|H].
    + by rewrite decide_True.
    + destruct (decide (k' = k)) as [->|]; [|auto].
      exfalso. apply Hnotin. apply list_elem_of_fmap. by exists (k, v).
Qed.

(** With unique keys, [d[k]] does not depend on the insertion order. *)
Lemma getitem_Permutation {V : Type} (d d' : list (pystr * V)) k :
  NoDup (keys d) -> d ≡ₚ d' -> getitem d k = getitem d' k.
Proof.
  intros Hnd Hperm.
  assert (NoDup (keys d')) as Hnd'.
  { unfold keys in *. by rewrite <- Hperm. }
  destruct (getitem d k) as [v|] eqn:Hd.
  - symmetry. apply getitem_elem_of_NoDup; [done|].
    rewrite <- Hperm. by apply getitem_Some_elem_of.
  - destruct (getitem d' k) as [v'|] eqn:Hd'; [|done].
    apply getitem_Some_elem_of in Hd'. rewrite <- Hperm in Hd'.
    apply getitem_elem_of_NoDup in Hd'; [congruence|done].
Qed.

Lemma key_set_Permutation {V : Type} (d d' : list (pystr * V)) :
  d ≡ₚ d' -> key_set d = key_set d'.
Proof. intros Hperm. unfold key_set, keys. by rewrite Hperm. Qed.

Lemma getitem_fmap {V W : Type} (f : V -> W) (items : list (pystr * V)) k :
  getitem (prod_map id f <$> items) k = f <$> getitem items k.
Proof.
  induction items as [|[k' v'] rest IH]; simpl; [done|].
  destruct (decide (k' = k)); [done|apply IH].
Qed.

(** ** Equations of the comparator, branch by branch *)

Lemma cmp_dict_unfold (da db : list (pystr * doc)) tol path :
  _cmp (DDict da) (DDict db) tol path =
  if bool_decide (key_set da <> key_set db) then
    Return (false, KeyMismatch path (sorted (key_set da)) (sorted (key_set db)))
  else cmp_keys (sorted (key_set da)) (prod_map id _cmp <$> da) db tol path.
Proof. reflexivity. Qed.

Lemma cmp_list_unfold (la lb : list doc) tol path :
  _cmp (DList la) (DList lb) tol path =
  if negb (Nat.eqb (length la) (length lb)) then
    Return (false, LengthMismatch path (length la) (length lb))
  else cmp_items _cmp tol path 0%nat la lb.
Proof. reflexivity. Qed.

Lemma cmp_number_unfold (a b : doc) tol path :
  is_number a = true -> is_number b = true ->
  _cmp a b tol path =
  af ← to_float a;
  bf ← to_float b;
  if float_le (float_abs (float_sub af bf)) tol then Return (true, Empty)
  else Return (false, NumberMismatch path a b tol).
Proof. by destruct a, b. Qed.

Lemma cmp_other_unfold (a b : doc) tol path :
  both_dicts a b = false -> both_lists a b = false ->
  is_number a && is_number b = false ->
  _cmp a b tol path =
  if value_eq a b then Return (true, Empty)
  else Return (false, ValueMismatch path a b).
Proof. by destruct a, b. Qed.

(** *** The loop over the sorted keys *)

Lemma cmp_keys_cons k ks (da db : list (pystr * doc)) tol path x y :
  getitem da k = Some x -> getitem db k = Some y ->
  cmp_keys (k :: ks) (prod_map id _cmp <$> da) db tol path =
  '(ok, msg) ← _cmp x y tol (path_key path k);
  if negb ok then Return (false, msg)
  else cmp_keys ks (prod_map id _cmp <$> da) db tol path.
Proof. intros Ha Hb. simpl. by rewrite getitem_fmap, Ha, Hb. Qed.

Lemma cmp_keys_ext ks fa fa' (b b' : list (pystr * doc)) tol path :
  (forall k, getitem fa k = getitem fa' k) ->
  (forall k, getitem b k = getitem b' k) ->
  cmp_keys ks fa b tol path = cmp_keys ks fa' b' tol path.
Proof.
  intros Hfa Hb. induction ks as [|k ks IH]; simpl; [done|].
  rewrite Hfa, Hb, IH. done.
Qed.

Lemma cmp_keys_all_pass ks (da db : list (pystr * doc)) tol path :
  (forall k, k ∈ ks -> key_passes da db tol path k) ->
  cmp_keys ks (prod_map id _cmp <$> da) db tol path = Return (true, Empty).
Proof.
  induction ks as [|k ks IH]; intros Hall; [done|].
  destruct (Hall k) as (x & y & Ha & Hb & Hxy); [left|].
  rewrite (cmp_keys_cons _ _ _ _ _ _ x y) by done.
  rewrite Hxy. simpl. apply IH. intros k' Hk'. apply Hall. by right.
Qed.

Lemma cmp_keys_first_failure ks1 k ks2 (da db : list (pystr * doc))
    tol path x y :
  (forall k', k' ∈ ks1 -> key_passes da db tol path k') ->
  getitem da k = Some x -> getitem db k = Some y ->
  cmp_keys (ks1 ++ k :: ks2) (prod_map id _cmp <$> da) db tol path =
  '(ok, msg) ← _cmp x y tol (path_key path k);
  if negb ok then Return (false, msg)
  else cmp_keys ks2 (prod_map id _cmp <$> da) db tol path.
Proof.
  intros Hall Ha Hb. induction ks1 as [|k1 ks1 IH].
  - simpl app. by apply cmp_keys_cons.
  - destruct (Hall k1) as (x1 & y1 & Ha1 & Hb1 & Hxy1); [left|].
    rewrite <- app_comm_cons.
    rewrite (cmp_keys_cons _ _ _ _ _ _ x1 y1) by done.
    rewrite Hxy1. simpl. apply IH. intros k' Hk'. apply Hall. by right.
Qed.

(** *** The loop over the positions *)

Lemma cmp_items_all_pass tol path i (xs ys : list doc) :
  (forall j x y, xs !! j = Some x -> ys !! j = Some y ->
     _cmp x y tol (path_index path (i + j)) = Return (true, Empty)) ->
  cmp_items _cmp tol path i xs ys = Return (true, Empty).
Proof.
  revert i ys. induction xs as [|x xs IH]; intros i [|y ys] Hall; try done.
  simpl. specialize (Hall 0%nat x y eq_refl eq_refl) as Hxy.
  rewrite Nat.add_0_r in Hxy. rewrite Hxy. simpl.
  apply IH. intros j x' y' Hx Hy.
  replace (S i + j)%nat with (i + S j)%nat by lia. by apply Hall.
Qed.

Lemma cmp_items_first_failure tol path i (xs1 xs2 ys1 ys2 : list doc) x y :
  length xs1 = length ys1 ->
  (forall j x' y', xs1 !! j = Some x' -> ys1 !! j = Some y' ->
     _cmp x' y' tol (path_index path (i + j)) = Return (true, Empty)) ->
  cmp_items _cmp tol path i (xs1 ++ x :: xs2) (ys1 ++ y :: ys2) =
  '(ok, msg) ← _cmp x y tol (path_index path (i + length xs1));
  if negb ok then Return (false, msg)
  else cmp_items _cmp tol path (S (i + length xs1)) xs2 ys2.
Proof.
  revert i ys1. induction xs1 as [|x1 xs1 IH]; intros i [|y1 ys1] Hlen Hall;
    try done.
  - simpl. by rewrite Nat.add_0_r.
  - simpl. specialize (Hall 0%nat x1 y1 eq_refl eq_refl) as Hxy.
    rewrite Nat.add_0_r in Hxy. rewrite Hxy. simpl.
    replace (i + S (length xs1))%nat with (S i + length xs1)%nat by lia.
    apply IH; [by injection Hlen|].
    intros j x' y' Hx Hy.
    replace (S i + j)%nat with (i + S j)%nat by lia. by apply Hall.
Qed.

(** ** Facts of binary64 arithmetic used below *)

Lemma float_sub_diag (f : float) :
  is_finite f = true -> float_sub f f = float_zero.
Proof.
  destruct f as [[]|[]| |s m e]; try done; intros _.
  unfold float_sub, SFsub, shl_align.
  by rewrite Z.sub_diag.
Qed.

Lemma float_le_refl (f : float) : f <> S754_nan -> float_le f f = true.
Proof.
  unfold float_le, SFleb.
  destruct f as [[]|[]| |[] m e]; try done; intros _; simpl;
    rewrite Z.compare_refl, Pos.compare_cont_spec, Pos.compare_refl;
    reflexivity.
Qed.

(** ** Numeric leaves (lines 172-177) *)

(** C1 (as amended).  For two numeric leaves that [float()] converts, to
    [af] and [bf], and every tolerance: the comparator declares them equal
    exactly when [abs(af - bf) <= tol] holds in binary64; the bound is
    closed, a difference equal to the tolerance is a match; otherwise it
    returns the number mismatch that carries the path, both raw values
    and the tolerance. *)
Theorem cmp_numbers_within_tolerance (a b : doc) (af bf tol : float)
    (path : pystr) :
  is_number a = true -> is_number b = true ->
  to_float a = Return af -> to_float b = Return bf ->
  (_cmp a b tol path = Return (true, Empty) <->
     float_le (float_abs (float_sub af bf)) tol = true)
  /\ (float_abs (float_sub af bf) = tol -> tol <> float_nan ->
        _cmp a b tol path = Return (true, Empty))
  /\ (float_le (float_abs (float_sub af bf)) tol = false ->
        _cmp a b tol path = Return (false, NumberMismatch path a b tol)).
Proof.
  intros Ha Hb Haf Hbf.
  rewrite (cmp_number_unfold a b tol path Ha Hb), Haf, Hbf. simpl.
  split; [|split].
  - destruct (float_le _ tol); split; congruence.
  - intros -> Hnan. by rewrite float_le_refl.
  - by intros ->.
Qed.

(** An integer of 309 digits is a numeric leaf, but [float()] raises
    [OverflowError] on it: the comparator returns neither verdict. *)
Lemma cmp_numbers_overflow :
  is_number (DInt 0) = true /\ is_number (DInt (2 ^ 1024)) = true /\
  _cmp (DInt 0) (DInt (2 ^ 1024)) f_0_02 (u "$") = Raise OverflowError.
Proof. by vm_compute. Qed.

(** The difference [abs(0.0 - 0.02)] is exactly the tolerance [0.02]. *)
Lemma cmp_numbers_within_tolerance_witness :
  (is_number (DFloat float_zero) = true /\
   is_number (DFloat f_0_02) = true /\
   to_float (DFloat float_zero) = Return float_zero /\
   to_float (DFloat f_0_02) = Return f_0_02 /\
   float_abs (float_sub float_zero f_0_02) = f_0_02 /\
   f_0_02 <> float_nan) /\
  _cmp (DFloat float_zero) (DFloat f_0_02) f_0_02 (u "$")
  = Return (true, Empty).
Proof.
  split; [repeat split; (reflexivity || discriminate)|].
  destruct (cmp_numbers_within_tolerance
              (DFloat float_zero) (DFloat f_0_02) float_zero f_0_02 f_0_02
              (u "$") eq_refl eq_refl eq_refl eq_refl) as (_ & Hclosed & _).
  apply Hclosed; [reflexivity|discriminate].
Defined.

(** The end-to-end scenarios 2 and 3: [x] off by 0.019 is within the
    tolerance 0.02; [x] off by 0.1 is reported at [$.glyphs[0].x]. *)
Example scenario_within_tolerance :
  _cmp sample_ref sample_near f_0_02 (u "$") = Return (true, Empty).
Proof. by vm_compute. Qed.

Example scenario_mismatch :
  _cmp sample_ref sample_off f_0_02 (u "$")
  = Return (false,
            NumberMismatch (u "$.glyphs[0].x") (DFloat float_zero)
              (DFloat f_0_1) f_0_02).
Proof. by vm_compute. Qed.

(** The comparison is made on the binary64 values: [2**53] and [2**53 + 1]
    convert to the same float and match at tolerance 0. *)
Example large_integers_collapse :
  _cmp (DInt (2 ^ 53)) (DInt (2 ^ 53 + 1)) float_zero (u "$")
  = Return (true, Empty).
Proof. by vm_compute. Qed.

(** ** Mappings (lines 154-163) *)

(** C3.  Two dicts with different key sets give a key mismatch at the
    current path, naming both key sets sorted; any difference counts, so
    neither a subset nor a superset passes.  With equal key sets the keys
    are visited in increasing order, each at the path extended with
    [.key]: the first key whose values differ decides the result,
    whatever the later keys hold, and the dicts match when every key
    passes.  The insertion order of the items plays no part. *)
Theorem cmp_mappings (da db : list (pystr * doc)) (tol : float)
    (path : pystr) :
  (key_set da <> key_set db ->
     _cmp (DDict da) (DDict db) tol path =
     Return (false,
             KeyMismatch path (sorted (key_set da)) (sorted (key_set db))))
  /\ (StronglySorted pystr_le (sorted (key_set da)) /\
      forall k, k ∈ sorted (key_set da) <-> k ∈ keys da)
  /\ (key_set da = key_set db ->
      (forall ks1 k ks2 x y msg,
         sorted (key_set da) = ks1 ++ k :: ks2 ->
         (forall k', k' ∈ ks1 -> key_passes da db tol path k') ->
         getitem da k = Some x -> getitem db k = Some y ->
         _cmp x y tol (path_key path k) = Return (false, msg) ->
         _cmp (DDict da) (DDict db) tol path = Return (false, msg))
      /\ ((forall k, k ∈ keys da -> key_passes da db tol path k) ->
          _cmp (DDict da) (DDict db) tol path = Return (true, Empty)))
  /\ (forall da' db',
        NoDup (keys da) -> NoDup (keys db) -> da ≡ₚ da' -> db ≡ₚ db' ->
        _cmp (DDict da') (DDict db') tol path =
        _cmp (DDict da) (DDict db) tol path).
Proof.
  split; [|split; [|split]].
  - intros Hne. rewrite cmp_dict_unfold. by rewrite bool_decide_eq_true_2.
  - split; [apply StronglySorted_sorted|].
    intros k. rewrite elem_of_sorted. apply elem_of_key_set.
  - intros Heq. split.
    + intros ks1 k ks2 x y msg Hks Hpass Ha Hb Hxy.
      rewrite cmp_dict_unfold, bool_decide_eq_false_2 by (by intros []).
      rewrite Hks, (cmp_keys_first_failure ks1 k ks2 da db tol path x y)
        by done.
      by rewrite Hxy.
    + intros Hpass.
      rewrite cmp_dict_unfold, bool_decide_eq_false_2 by (by intros []).
      apply cmp_keys_all_pass. intros k Hk. apply Hpass.
      by apply elem_of_key_set, elem_of_sorted.
  - intros da' db' Hnda Hndb Hpa Hpb.
    rewrite !cmp_dict_unfold.
    rewrite <- (key_set_Permutation da da'), <- (key_set_Permutation db db')
      by done.
    destruct (bool_decide _); [done|].
    apply cmp_keys_ext.
    + intros k. rewrite !getitem_fmap.
      by rewrite (getitem_Permutation da da').
    + intros k. by rewrite (getitem_Permutation db db').
Qed.

Lemma cmp_mappings_witness :
  _cmp (DDict d_ab) (DDict d_ac) f_0_02 (u "$")
  = Return (false, KeyMismatch (u "$") [u "a"; u "b"] [u "a"; u "c"])
  /\ _cmp (DDict d_abc) (DDict d_abc') f_0_02 (u "$")
     = Return (false, NumberMismatch (u "$.b") (DInt 2) (DInt 5) f_0_02)
  /\ _cmp (DDict d_ab) (DDict d_ba) f_0_02 (u "$") = Return (true, Empty).
Proof.
  split; [|split].
  - destruct (cmp_mappings d_ab d_ac f_0_02 (u "$")) as (Hkeys & _).
    apply Hkeys. compute_done.
  - destruct (cmp_mappings d_abc d_abc' f_0_02 (u "$"))
      as (_ & _ & Heq & _).
    destruct Heq as (Hfirst & _).
    { compute_done. }
    apply (Hfirst [u "a"] (u "b") [u "c"] (DInt 2) (DInt 5)).
    + vm_compute. reflexivity.
    + intros k' Hk'. apply list_elem_of_singleton in Hk' as ->.
      exists (DInt 1), (DInt 1). repeat split; vm_compute; reflexivity.
    + vm_compute. reflexivity.
    + vm_compute. reflexivity.
    + vm_compute. reflexivity.
  - destruct (cmp_mappings d_ab d_ab f_0_02 (u "$"))
      as (_ & _ & Heq & Hperm).
    rewrite (Hperm d_ab d_ba).
    + destruct Heq as (_ & Hall); [reflexivity|].
      apply Hall. intros k Hk.
      unfold d_ab, keys in Hk. simpl in Hk.
      apply elem_of_cons in Hk as [->|Hk];
        [|apply list_elem_of_singleton in Hk as ->].
      * exists (DInt 1), (DInt 1). repeat split; vm_compute; reflexivity.
      * exists (DInt 2), (DInt 2). repeat split; vm_compute; reflexivity.
    + compute_done.
    + compute_done.
    + reflexivity.
    + apply Permutation_swap.
Defined.

(** ** Sequences (lines 164-171) *)

(** C4.  Two lists of different lengths give a length mismatch at the
    current path, carrying both lengths.  With equal lengths the elements
    are compared pairwise by position, each at the path extended with
    [[index]]: the first position whose elements differ decides the
    result and the lists match when every position passes.  So the order
    counts: [[1,2]] against [[2,1]] fails at index 0 (for a tolerance
    below 1), and [[1,2]] against [[1,2,3]] is a length mismatch. *)
Theorem cmp_sequences (la lb : list doc) (tol : float) (path : pystr) :
  (length la <> length lb ->
     _cmp (DList la) (DList lb) tol path =
     Return (false, LengthMismatch path (length la) (length lb)))
  /\ (length la = length lb ->
      (forall i x y msg,
         la !! i = Some x -> lb !! i = Some y ->
         (forall j x' y', (j < i)%nat ->
            la !! j = Some x' -> lb !! j = Some y' ->
            _cmp x' y' tol (path_index path j) = Return (true, Empty)) ->
         _cmp x y tol (path_index path i) = Return (false, msg) ->
         _cmp (DList la) (DList lb) tol path = Return (false, msg))
      /\ ((forall j x' y', la !! j = Some x' -> lb !! j = Some y' ->
             _cmp x' y' tol (path_index path j) = Return (true, Empty)) ->
          _cmp (DList la) (DList lb) tol path = Return (true, Empty)))
  /\ (float_le f_one tol = false ->
      _cmp (DList [DInt 1; DInt 2]) (DList [DInt 2; DInt 1]) tol path =
      Return (false, NumberMismatch (path_index path 0) (DInt 1) (DInt 2) tol))
  /\ _cmp (DList [DInt 1; DInt 2]) (DList [DInt 1; DInt 2; DInt 3]) tol path
     = Return (false, LengthMismatch path 2 3).
Proof.
  split; [|split; [|split]].
  - intros Hne. rewrite cmp_list_unfold.
    by rewrite (proj2 (Nat.eqb_neq _ _) Hne).
  - intros Hlen. rewrite cmp_list_unfold, Hlen, Nat.eqb_refl. simpl negb.
    cbv iota. split.
    + intros i x y msg Hx Hy Hbefore Hxy.
      rewrite <- (take_drop_middle la i x Hx), <- (take_drop_middle lb i y Hy).
      assert (length (take i la) = i) as Hti.
      { apply length_take_le, Nat.lt_le_incl. by eapply lookup_lt_Some. }
      assert (length (take i lb) = i) as Htj.
      { apply length_take_le, Nat.lt_le_incl. by eapply lookup_lt_Some. }
      rewrite cmp_items_first_failure.
      * rewrite Hti. simpl. by rewrite Hxy.
      * congruence.
      * intros j x' y' Hx' Hy'. simpl.
        assert (j < i)%nat as Hji.
        { rewrite <- Hti. by eapply lookup_lt_Some. }
        rewrite lookup_take_lt in Hx', Hy' by done.
        by apply Hbefore.
    + intros Hall. apply cmp_items_all_pass. intros j x y. simpl. apply Hall.
  - intros Htol. rewrite cmp_list_unfold.
    change (negb (length [DInt 1; DInt 2] =? length [DInt 2; DInt 1])%nat)
      with false.
    cbv iota. unfold cmp_items.
    rewrite (cmp_number_unfold (DInt 1) (DInt 2)) by done.
    change (float_le f_one tol) with
      (float_le (float_abs (float_sub f_one f_two)) tol) in Htol.
    change (to_float (DInt 1)) with (Return f_one).
    change (to_float (DInt 2)) with (Return f_two).
    unfold mbind, result_bind. cbv beta iota. by rewrite Htol.
  - reflexivity.
Qed.

Lemma cmp_sequences_witness :
  _cmp (DList [DInt 1; DInt 2]) (DList [DInt 1; DInt 2; DInt 3]) f_0_02
    (u "$")
  = Return (false, LengthMismatch (u "$") 2 3)
  /\ _cmp (DList [DInt 1; DInt 2]) (DList [DInt 2; DInt 1]) f_0_02 (u "$")
     = Return (false, NumberMismatch (u "$[0]") (DInt 1) (DInt 2) f_0_02)
  /\ _cmp (DList [DInt 7; DStr (u "x"); DNull])
       (DList [DInt 7; DStr (u "y"); DBool true]) f_0_02 (u "$")
     = Return (false, ValueMismatch (u "$[1]") (DStr (u "x")) (DStr (u "y")))
  /\ _cmp (DList [DInt 7; DNull]) (DList [DFloat (S754_finite false 7 0);
                                          DNull]) f_0_02 (u "$")
     = Return (true, Empty).
Proof.
  split; [|split; [|split]].
  - destruct (cmp_sequences [DInt 1; DInt 2] [DInt 1; DInt 2; DInt 3]
                f_0_02 (u "$")) as (Hlen & _).
    apply Hlen. simpl. lia.
  - destruct (cmp_sequences [] [] f_0_02 (u "$")) as (_ & _ & Hswap & _).
    apply Hswap. reflexivity.
  - destruct (cmp_sequences [DInt 7; DStr (u "x"); DNull]
                [DInt 7; DStr (u "y"); DBool true] f_0_02 (u "$"))
      as (_ & Heq & _).
    destruct Heq as (Hfirst & _); [reflexivity|].
    apply (Hfirst 1%nat (DStr (u "x")) (DStr (u "y"))); try reflexivity.
    intros [|j] x' y' Hj; [|lia].
    intros [= <-] [= <-]. reflexivity.
  - destruct (cmp_sequences [DInt 7; DNull]
                [DFloat (S754_finite false 7 0); DNull] f_0_02 (u "$"))
      as (_ & Heq & _).
    destruct Heq as (_ & Hall); [reflexivity|].
    apply Hall. intros [|[|j]] x' y'; simpl; try discriminate;
      intros [= <-] [= <-]; reflexivity.
Defined.

(** ** Reflexivity *)

Lemma cmp_number_refl (a : doc) (tol : float) (path : pystr) :
  is_number a = true -> has_finite_float a = true -> nonneg tol ->
  _cmp a a tol path = Return (true, Empty).
Proof.
  intros Hnum Hfin Htol. rewrite cmp_number_unfold by done.
  unfold has_finite_float in Hfin.
  destruct (to_float a) as [f|e]; [|done]. simpl.
  rewrite float_sub_diag by done. simpl.
  unfold nonneg, float_zero in Htol. by rewrite Htol.
Qed.

(** C2 (as amended).  A document whose numbers all have a finite binary64
    value compares equal to itself, at every path and for every tolerance
    [tol >= 0]. *)
Theorem cmp_reflexive (a : doc) (tol : float) (path : pystr) :
  finite_numbers a = true -> nonneg tol ->
  _cmp a a tol path = Return (true, Empty).
Proof.
  intros Hfin Htol. revert path Hfin.
  induction a as [|b|z|f|s|l IH|items IH] using doc_induction;
    intros path Hfin.
  - reflexivity.
  - by apply cmp_number_refl.
  - by apply cmp_number_refl.
  - by apply cmp_number_refl.
  - rewrite cmp_other_unfold by done. simpl. by rewrite bool_decide_eq_true_2.
  - rewrite cmp_list_unfold, Nat.eqb_refl. simpl negb. cbv iota.
    apply cmp_items_all_pass. intros j x y Hx Hy.
    assert (y = x) as -> by congruence.
    rewrite Forall_lookup in IH. apply (IH j x Hx).
    unfold finite_numbers in Hfin. simpl in Hfin.
    rewrite forallb_forall in Hfin. apply Hfin.
    apply list_elem_of_In. by eapply list_elem_of_lookup_2.
  - rewrite cmp_dict_unfold, bool_decide_eq_false_2 by (by intros []).
    apply cmp_keys_all_pass. intros k Hk.
    apply elem_of_sorted, elem_of_key_set, getitem_is_Some in Hk as [x Hx].
    exists x, x. repeat split; try done.
    pose proof (getitem_Some_elem_of _ _ _ Hx) as Hin.
    rewrite Forall_forall in IH. apply (IH (k, x)).
    + done.
    + unfold finite_numbers in Hfin. simpl in Hfin.
      rewrite forallb_forall in Hfin.
      by apply (Hfin (k, x)), list_elem_of_In.
Qed.

(** A NaN is not equal to itself: the document [NaN], which [json.loads]
    accepts, does not match itself at the default tolerance. *)
Lemma cmp_nan_not_reflexive :
  nonneg f_0_02 /\
  _cmp (DFloat float_nan) (DFloat float_nan) f_0_02 (u "$")
  = Return (false,
            NumberMismatch (u "$") (DFloat float_nan) (DFloat float_nan)
              f_0_02).
Proof. split; reflexivity. Qed.

Lemma cmp_reflexive_witness :
  (finite_numbers sample = true /\ nonneg f_0_02) /\
  _cmp sample sample f_0_02 (u "$") = Return (true, Empty).
Proof.
  split; [split; reflexivity|].
  apply (cmp_reflexive sample f_0_02 (u "$")); reflexivity.
Defined.

(** ** Totality *)

Lemma cmp_leaf_outcome (a b : doc) tol path :
  both_dicts a b = false -> both_lists a b = false ->
  verdict_or_overflow (ints_in_range a && ints_in_range b)
    (_cmp a b tol path).
Proof.
  intros Hd Hl. destruct (is_number a && is_number b) eqn:Hnum.
  - apply andb_prop in Hnum as [Ha Hb]. rewrite cmp_number_unfold by done.
    assert (ints_in_range a = has_float a) as -> by (by destruct a).
    assert (ints_in_range b = has_float b) as -> by (by destruct b).
    unfold has_float.
    assert (forall c, match to_float c with
                      | Return _ => True
                      | Raise e => is_number c = true -> e = OverflowError
                      end) as Hexn.
    { intros [| [] |z| | | |]; simpl; try done;
        unfold float_of_int; destruct (binary_normalize _ _ _ _ _); done. }
    pose proof (Hexn a) as Hea. pose proof (Hexn b) as Heb.
    destruct (to_float a) as [af|ea]; simpl; [|auto].
    destruct (to_float b) as [bf|eb]; simpl; [|auto].
    by destruct (float_le _ tol).
  - rewrite cmp_other_unfold by done. by destruct (value_eq a b).
Qed.

Lemma cmp_items_outcome tol path (xs ys : list doc) i :
  Forall (fun x => forall b path,
            verdict_or_overflow (ints_in_range x && ints_in_range b)
              (_cmp x b tol path)) xs ->
  verdict_or_overflow
    (forallb ints_in_range xs && forallb ints_in_range ys)
    (cmp_items _cmp tol path i xs ys).
Proof.
  intros Hxs. revert i ys.
  induction Hxs as [|x xs Hx _ IH]; intros i [|y ys]; try done.
  simpl. specialize (Hx y (path_index path i)).
  destruct (_cmp x y tol (path_index path i)) as [[[] msg]|e]; simpl.
  - specialize (IH (S i) ys).
    destruct (cmp_items _ _ _ _ _ _) as [v|e]; simpl in *; [done|].
    destruct IH as [-> Hr]. split; [done|].
    destruct (forallb ints_in_range xs), (forallb ints_in_range ys);
      rewrite ?andb_false_r; done.
  - done.
  - destruct Hx as [-> Hr]. split; [done|].
    destruct (ints_in_range x), (ints_in_range y);
      rewrite ?andb_false_r; done.
Qed.

Lemma forallb_values_false (d : list (pystr * doc)) k x :
  (k, x) ∈ d -> ints_in_range x = false ->
  forallb (fun kv => ints_in_range (snd kv)) d = false.
Proof.
  intros Hin Hx. apply not_true_is_false. intros Hall.
  rewrite forallb_forall in Hall.
  apply list_elem_of_In, Hall in Hin. simpl in Hin. congruence.
Qed.

Lemma cmp_keys_outcome tol path (da db : list (pystr * doc)) ks :
  Forall (fun kv => forall b path,
            verdict_or_overflow (ints_in_range (snd kv) && ints_in_range b)
              (_cmp (snd kv) b tol path)) da ->
  (forall k, k ∈ ks -> k ∈ keys da /\ k ∈ keys db) ->
  verdict_or_overflow
    (forallb (fun kv => ints_in_range (snd kv)) da &&
     forallb (fun kv => ints_in_range (snd kv)) db)
    (cmp_keys ks (prod_map id _cmp <$> da) db tol path).
Proof.
  intros Hda. induction ks as [|k ks IH]; intros Hks; [done|].
  destruct (Hks k) as [Hka Hkb]; [left|].
  apply getitem_is_Some in Hka as [x Hx], Hkb as [y Hy].
  rewrite (cmp_keys_cons _ _ _ _ _ _ x y) by done.
  pose proof (getitem_Some_elem_of _ _ _ Hx) as Hinx.
  pose proof (getitem_Some_elem_of _ _ _ Hy) as Hiny.
  rewrite Forall_forall in Hda.
  specialize (Hda (k, x) Hinx y (path_key path k)). simpl in Hda.
  destruct (_cmp x y tol (path_key path k)) as [[[] msg]|e]; simpl.
  - apply IH. intros k' Hk'. apply Hks. by right.
  - done.
  - destruct Hda as [-> Hr]. split; [done|].
    apply andb_false_iff in Hr as [Hr|Hr].
    + by rewrite (forallb_values_false da k x).
    + rewrite (forallb_values_false db k y) by done. apply andb_false_r.
Qed.

Lemma cmp_outcome (a b : doc) tol path :
  verdict_or_overflow (ints_in_range a && ints_in_range b)
    (_cmp a b tol path).
Proof.
  revert b path.
  induction a as [|c|z|f|s|l IH|items IH] using doc_induction;
    intros b path; destruct b as [|c'|z'|f'|s'|l'|items'];
    try (by apply cmp_leaf_outcome).
  - rewrite cmp_list_unfold.
    destruct (negb _); [done|]. by apply cmp_items_outcome.
  - rewrite cmp_dict_unfold. case_bool_decide as Hkeys; [done|].
    apply cmp_keys_outcome; [done|].
    intros k Hk. apply elem_of_sorted in Hk.
    split; apply elem_of_key_set; congruence.
Qed.

(** ** The bounded comparator against the comparator *)

Lemma depth_pos (d : doc) : (0 < depth d)%nat.
Proof. destruct d; simpl; lia. Qed.

Lemma formats_root fmt (d : doc) e :
  fmt d = Some e -> formats fmt d = false.
Proof.
  intros He. destruct d; simpl; rewrite bool_decide_eq_false_2; try done;
    by rewrite He.
Qed.

Lemma depth_le_foldr {A : Type} (f : A -> nat) (l : list A) (x : A) :
  x ∈ l -> (f x <= foldr (fun x n => Nat.max (f x) n) 0 l)%nat.
Proof.
  induction l as [|y l IH]; intros Hin.
  - by apply elem_of_nil in Hin.
  - apply elem_of_cons in Hin as [->|Hin]; simpl; [lia|].
    specialize (IH Hin). lia.
Qed.

Lemma forallb_false_elem_of {A : Type} (p : A -> bool) (l : list A) (x : A) :
  x ∈ l -> p x = false -> forallb p l = false.
Proof.
  intros Hin Hx. apply not_true_is_false. intros Hall.
  rewrite forallb_forall in Hall.
  apply list_elem_of_In, Hall in Hin. congruence.
Qed.

Lemma format_values_outcome fmt (a b : doc) msg :
  format_values fmt a b msg = Return (false, msg) \/
  exists e, format_values fmt a b msg = Raise e /\
    (exists v, fmt v = Some e) /\ formats fmt a && formats fmt b = false.
Proof.
  unfold format_values. destruct (fmt a) as [e|] eqn:Ha.
  - right. exists e. split; [done|]. split; [by exists a|].
    by rewrite (formats_root fmt a e).
  - destruct (fmt b) as [e|] eqn:Hb; [|by left].
    right. exists e. split; [done|]. split; [by exists b|].
    rewrite (formats_root fmt b e) by done. apply andb_false_r.
Qed.

Lemma cmp_bounded_leaf_unfold fmt (a b : doc) frames tol path :
  both_dicts a b = false -> both_lists a b = false ->
  _cmp_bounded fmt a (S frames) b tol path =
  if is_number a && is_number b then
    af ← to_float a;
    bf ← to_float b;
    if float_le (float_abs (float_sub af bf)) tol then Return (true, Empty)
    else format_values fmt a b (NumberMismatch path a b tol)
  else if value_eq a b then Return (true, Empty)
  else format_values fmt a b (ValueMismatch path a b).
Proof. by destruct a, b. Qed.

Lemma cmp_bounded_leaf_refines fmt (a b : doc) frames tol path :
  both_dicts a b = false -> both_lists a b = false ->
  _cmp_bounded fmt a (S frames) b tol path = _cmp a b tol path \/
  limit_reached fmt (S frames) a b (_cmp_bounded fmt a (S frames) b tol path).
Proof.
  intros Hd Hl. rewrite cmp_bounded_leaf_unfold by done.
  destruct (is_number a && is_number b) eqn:Hnum.
  - apply andb_prop in Hnum as [Ha Hb]. rewrite cmp_number_unfold by done.
    destruct (to_float a) as [af|ea]; simpl; [|by left].
    destruct (to_float b) as [bf|eb]; simpl; [|by left].
    destruct (float_le _ tol); [by left|].
    destruct (format_values_outcome fmt a b (NumberMismatch path a b tol))
      as [->|(e & -> & Hv & Hf)]; [by left|].
    right. right. by exists e.
  - rewrite cmp_other_unfold by done.
    destruct (value_eq a b); [by left|].
    destruct (format_values_outcome fmt a b (ValueMismatch path a b))
      as [->|(e & -> & Hv & Hf)]; [by left|].
    right. right. by exists e.
Qed.

(** The loop over the positions, where the calls have [frames] frames. *)
Lemma cmp_items_refines fmt frames tol path (xs : list doc) :
  Forall (fun x => forall b path,
            _cmp_bounded fmt x frames b tol path = _cmp x b tol path \/
            limit_reached fmt frames x b
              (_cmp_bounded fmt x frames b tol path)) xs ->
  forall i ys,
    cmp_items (fun x => _cmp_bounded fmt x frames) tol path i xs ys
    = cmp_items _cmp tol path i xs ys \/
    limit_reached fmt (S frames) (DList xs) (DList ys)
      (cmp_items (fun x => _cmp_bounded fmt x frames) tol path i xs ys).
Proof.
  intros Hxs.
  assert (forall i ys,
    cmp_items (fun x => _cmp_bounded fmt x frames) tol path i xs ys
    = cmp_items _cmp tol path i xs ys \/
    (cmp_items (fun x => _cmp_bounded fmt x frames) tol path i xs ys
     = Raise RecursionError /\
     (frames < foldr (fun x n => Nat.max (depth x) n) 0 xs)%nat /\
     (frames < foldr (fun x n => Nat.max (depth x) n) 0 ys)%nat) \/
    (exists e,
       cmp_items (fun x => _cmp_bounded fmt x frames) tol path i xs ys
       = Raise e /\ (exists v, fmt v = Some e) /\
       forallb (formats fmt) xs && forallb (formats fmt) ys = false)) as H.
  { induction Hxs as [|x xs Hx _ IH]; intros i [|y ys]; try (by left).
    simpl. destruct (Hx y (path_index path i)) as [->|Hlim].
    - destruct (_cmp x y tol (path_index path i)) as [[[] msg]|e]; simpl;
        try (by left).
      destruct (IH (S i) ys) as [->|[(-> & Ha & Hb)|(e & -> & Hv & Hf)]];
        [by left| |].
      + right. left. split; [done|]. lia.
      + right. right. exists e. split; [done|]. split; [done|].
        apply andb_false_iff in Hf as [->| ->];
          rewrite ?andb_false_r; by destruct (formats fmt x).
    - destruct Hlim as [(-> & Ha & Hb)|(e & -> & Hv & Hf)]; simpl.
      + right. left. split; [done|]. lia.
      + right. right. exists e. split; [done|]. split; [done|].
        apply andb_false_iff in Hf as [->| ->]; [done|].
        by destruct (formats fmt x && forallb (formats fmt) xs). }
  intros i ys. destruct (H i ys) as [->|[(-> & Ha & Hb)|(e & -> & Hv & Hf)]];
    [by left| |].
  - right. left. split; [done|]. simpl. lia.
  - right. right. exists e. split; [done|]. split; [done|]. simpl.
    apply andb_false_iff in Hf as [->| ->]; by rewrite ?andb_false_r.
Qed.

(** The loop over the sorted keys, where the calls have [frames] frames. *)
Lemma cmp_keys_refines fmt frames tol path (da db : list (pystr * doc)) ks :
  Forall (fun kv => forall b path,
            _cmp_bounded fmt (snd kv) frames b tol path
            = _cmp (snd kv) b tol path \/
            limit_reached fmt frames (snd kv) b
              (_cmp_bounded fmt (snd kv) frames b tol path)) da ->
  cmp_keys ks (prod_map id (fun v => _cmp_bounded fmt v frames) <$> da)
    db tol path
  = cmp_keys ks (prod_map id _cmp <$> da) db tol path \/
  limit_reached fmt (S frames) (DDict da) (DDict db)
    (cmp_keys ks (prod_map id (fun v => _cmp_bounded fmt v frames) <$> da)
       db tol path).
Proof.
  intros Hda. induction ks as [|k ks IH]; [by left|].
  simpl. rewrite !getitem_fmap.
  destruct (getitem da k) as [x|] eqn:Hx; simpl; [|by left].
  destruct (getitem db k) as [y|] eqn:Hy; simpl; [|by left].
  pose proof (getitem_Some_elem_of _ _ _ Hx) as Hinx.
  pose proof (getitem_Some_elem_of _ _ _ Hy) as Hiny.
  pose proof (depth_le_foldr (fun kv : pystr * doc => depth (snd kv))
                da (k, x) Hinx) as Hdx.
  pose proof (depth_le_foldr (fun kv : pystr * doc => depth (snd kv))
                db (k, y) Hiny) as Hdy.
  simpl in Hdx, Hdy.
  rewrite Forall_forall in Hda.
  destruct (Hda (k, x) Hinx y (path_key path k)) as [Heq|Hlim]; simpl in *.
  - rewrite Heq.
    destruct (_cmp x y tol (path_key path k)) as [[[] msg]|e]; simpl;
      try (by left).
    exact IH.
  - right. destruct Hlim as [(-> & Ha & Hb)|(e & -> & Hv & Hf)]; simpl.
    + left. split; [done|]. simpl. lia.
    + right. exists e. split; [done|]. split; [done|]. simpl.
      apply andb_false_iff in Hf as [Hf|Hf].
      * rewrite (forallb_false_elem_of
                   (fun kv : pystr * doc => formats fmt (snd kv)) da (k, x))
          by done.
        by rewrite andb_false_r.
      * rewrite (forallb_false_elem_of
                   (fun kv : pystr * doc => formats fmt (snd kv)) db (k, y))
          by done.
        by rewrite !andb_false_r.
Qed.

(** The bounded comparator does what the comparator does, unless it ends
    at a limit of the interpreter. *)
Lemma cmp_bounded_refines fmt (a : doc) :
  forall frames b tol path,
    _cmp_bounded fmt a frames b tol path = _cmp a b tol path \/
    limit_reached fmt frames a b (_cmp_bounded fmt a frames b tol path).
Proof.
  induction a as [|c|z|f|s|l IH|items IH] using doc_induction;
    intros [|frames] b tol path;
    try (right; left; split; [reflexivity|split; apply depth_pos]);
    destruct b as [|c'|z'|f'|s'|l'|items'];
    try (by apply cmp_bounded_leaf_refines).
  - change (_cmp_bounded fmt (DList l) (S frames) (DList l') tol path)
      with (if negb (Nat.eqb (length l) (length l')) then
              Return (false, LengthMismatch path (length l) (length l'))
            else cmp_items (fun x => _cmp_bounded fmt x frames) tol path
                   0%nat l l').
    rewrite cmp_list_unfold. destruct (negb _); [by left|].
    apply cmp_items_refines.
    eapply Forall_impl; [exact IH|]. intros x Hx b' path'. apply Hx.
  - change (_cmp_bounded fmt (DDict items) (S frames) (DDict items') tol path)
      with (if bool_decide (key_set items <> key_set items') then
              Return (false, KeyMismatch path (sorted (key_set items))
                               (sorted (key_set items')))
            else cmp_keys (sorted (key_set items))
                   (prod_map id (fun v => _cmp_bounded fmt v frames)
                      <$> items) items' tol path).
    rewrite cmp_dict_unfold. case_bool_decide; [by left|].
    apply cmp_keys_refines.
    eapply Forall_impl; [exact IH|]. intros kv Hkv b' path'. apply Hkv.
Qed.

(** C10 (as amended).  The comparator is defined by recursion on the
    reference document, so every call ends.  It ends with a verdict, or
    with the [OverflowError] that [float()] raises on an integer out of
    the range of binary64, or at a limit of the interpreter:
    [RecursionError] where both documents are nested deeper than the
    frames left, or the exception of the formatting of a value.  When the
    integers of both documents are in range, one of the two documents is
    nested no deeper than the frames left and every value formats, the
    call returns a verdict, the one of [_cmp]. *)
Theorem cmp_bounded_total (fmt : doc -> option exn) (frames : nat)
    (a b : doc) (tol : float) (path : pystr) :
  let r := _cmp_bounded fmt a frames b tol path in
  ((exists ok msg, r = Return (ok, msg))
   \/ (r = Raise OverflowError /\ ints_in_range a && ints_in_range b = false)
   \/ limit_reached fmt frames a b r)
  /\ (ints_in_range a = true -> ints_in_range b = true ->
      (depth a <= frames)%nat \/ (depth b <= frames)%nat ->
      formats fmt a = true -> formats fmt b = true ->
      r = _cmp a b tol path /\ exists ok msg, r = Return (ok, msg)).
Proof.
  cbv zeta. pose proof (cmp_outcome a b tol path) as Hout.
  destruct (cmp_bounded_refines fmt a frames b tol path) as [Heq|Hlim].
  - rewrite Heq.
    destruct (_cmp a b tol path) as [[ok msg]|e]; simpl in Hout.
    + split; [left|]; eauto.
    + destruct Hout as [-> Hr]. split; [right; by left|].
      intros Ha Hb. by rewrite Ha, Hb in Hr.
  - split; [right; by right|].
    intros _ _ Hdepth Hfa Hfb. exfalso.
    destruct Hlim as [(_ & Ha & Hb)|(e & _ & _ & Hf)]; [lia|].
    by rewrite Hfa, Hfb in Hf.
Qed.

(** An integer with 401 digits in the candidate: the call ends with an
    exception, not with a verdict. *)
Lemma cmp_raises_overflow :
  _cmp (DList [DInt 1]) (DList [DInt (10 ^ 400)]) f_0_02 (u "$")
  = Raise OverflowError.
Proof. by vm_compute. Qed.

(** The two limits of the interpreter: a list nested five deep against
    itself with three frames left, and an integer of 5001 digits against a
    string under the default limit of 4300 digits. *)
Lemma cmp_bounded_recursion_error :
  _cmp_bounded no_format_error (nested 5) 3 (nested 5) f_0_02 (u "$")
  = Raise RecursionError.
Proof. reflexivity. Qed.

Lemma cmp_bounded_value_error :
  _cmp_bounded (digits_error int_max_str_digits) (DInt (10 ^ 5000)) 1000
    (DStr (u "x")) f_0_02 (u "$")
  = Raise ValueError.
Proof. by vm_compute. Qed.

Lemma cmp_bounded_total_witness :
  (ints_in_range sample_ref = true /\ ints_in_range sample_off = true /\
   (depth sample_ref <= 4)%nat /\
   formats no_format_error sample_ref = true /\
   formats no_format_error sample_off = true) /\
  _cmp_bounded no_format_error sample_ref 4 sample_off f_0_02 (u "$")
  = _cmp sample_ref sample_off f_0_02 (u "$") /\
  exists ok msg,
    _cmp_bounded no_format_error sample_ref 4 sample_off f_0_02 (u "$")
    = Return (ok, msg).
Proof.
  split; [repeat split; vm_compute; (reflexivity || lia)|].
  apply (cmp_bounded_total no_format_error 4 sample_ref sample_off f_0_02
           (u "$")); try reflexivity.
  left. vm_compute. lia.
Defined.

(** ** Strings, booleans and null (lines 172-180) *)

(** C5 (as amended).  Two strings are equal exactly when they are the same
    string, whatever the tolerance, and two different strings give a value
    mismatch carrying both; null equals null.  Two booleans pass the test
    of line 172 and are compared as the numbers 1 and 0: a boolean equals
    itself for every [tol >= 0], and [True] against [False] is a match
    exactly when [1.0 <= tol], otherwise a number mismatch carrying both
    values and the tolerance. *)
Theorem cmp_scalar_leaves (tol : float) (path : pystr) :
  (forall s t,
     (_cmp (DStr s) (DStr t) tol path = Return (true, Empty) <-> s = t) /\
     (s <> t ->
      _cmp (DStr s) (DStr t) tol path =
      Return (false, ValueMismatch path (DStr s) (DStr t))))
  /\ _cmp DNull DNull tol path = Return (true, Empty)
  /\ (forall x, nonneg tol ->
        _cmp (DBool x) (DBool x) tol path = Return (true, Empty))
  /\ (forall x y, x <> y ->
        (_cmp (DBool x) (DBool y) tol path = Return (true, Empty) <->
           float_le f_one tol = true) /\
        (float_le f_one tol = false ->
           _cmp (DBool x) (DBool y) tol path =
           Return (false, NumberMismatch path (DBool x) (DBool y) tol))).
Proof.
  split; [|split; [|split]].
  - intros s t. rewrite cmp_other_unfold by done. simpl.
    case_bool_decide as Hst; split; try done; congruence.
  - reflexivity.
  - intros x Htol. by apply cmp_number_refl; [| destruct x |].
  - intros x y Hxy. rewrite (cmp_number_unfold (DBool x) (DBool y)) by done.
    assert (float_abs (float_sub (if x then f_one else float_zero)
                         (if y then f_one else float_zero)) = f_one) as Hd.
    { by destruct x, y. }
    replace (to_float (DBool x))
      with (Return (if x then f_one else float_zero)) by (by destruct x).
    replace (to_float (DBool y))
      with (Return (if y then f_one else float_zero)) by (by destruct y).
    unfold mbind, result_bind. cbv beta iota. rewrite Hd.
    destruct (float_le f_one tol); split; try done; congruence.
Qed.

(** At the tolerance 1.0 the booleans [True] and [False] compare equal. *)
Lemma cmp_true_false_match :
  nonneg f_one /\
  _cmp (DBool true) (DBool false) f_one (u "$") = Return (true, Empty).
Proof. split; reflexivity. Qed.

Lemma cmp_scalar_leaves_witness :
  _cmp (DBool true) (DBool true) f_0_02 (u "$") = Return (true, Empty)
  /\ _cmp (DBool true) (DBool false) f_0_02 (u "$")
     = Return (false,
               NumberMismatch (u "$") (DBool true) (DBool false) f_0_02)
  /\ _cmp (DStr (u "ab")) (DStr (u "ac")) f_two (u "$")
     = Return (false, ValueMismatch (u "$") (DStr (u "ab")) (DStr (u "ac"))).
Proof.
  split; [|split].
  - destruct (cmp_scalar_leaves f_0_02 (u "$")) as (_ & _ & Hrefl & _).
    apply Hrefl. reflexivity.
  - destruct (cmp_scalar_leaves f_0_02 (u "$")) as (_ & _ & _ & Hbool).
    destruct (Hbool true false) as [_ Hne]; [discriminate|].
    apply Hne. reflexivity.
  - destruct (cmp_scalar_leaves f_two (u "$")) as (Hstr & _).
    destruct (Hstr (u "ab") (u "ac")) as [_ Hne].
    apply Hne. discriminate.
Defined.

(** ** Values of different kinds *)

(** C6 (as amended).  Two values of different kinds, in a call that has a
    frame: unless both are numeric the call never declares them equal; it
    formats the two values for a value mismatch at the current path, which
    it returns when both format, and ends with the exception of the
    formatting otherwise.  A boolean against a number is the exception:
    both pass the test of line 172, so the boolean is compared as 1.0 or
    0.0 with [float()] of the number within the tolerance, a match when
    within it and a number mismatch otherwise; when the number is an
    integer out of the range of binary64, [float()] raises
    [OverflowError].  A call with no frame left raises
    [RecursionError]. *)
Theorem cmp_bounded_mismatched_kinds (fmt : doc -> option exn) (frames : nat)
    (a b : doc) (tol : float) (path : pystr) :
  kind_of a <> kind_of b ->
  let r := _cmp_bounded fmt a (S frames) b tol path in
  (is_number a && is_number b = false ->
     r = format_values fmt a b (ValueMismatch path a b)
     /\ (fmt a = None -> fmt b = None ->
         r = Return (false, ValueMismatch path a b))
     /\ (forall e, fmt a = Some e -> r = Raise e)
     /\ (forall e, fmt a = None -> fmt b = Some e -> r = Raise e)
     /\ forall msg, r <> Return (true, msg))
  /\ (is_number a && is_number b = true ->
      (forall x, to_float (DBool x)
                 = Return (if x then f_one else float_zero))
      /\ ((exists af bf,
             to_float a = Return af /\ to_float b = Return bf /\
             r = if float_le (float_abs (float_sub af bf)) tol
                 then Return (true, Empty)
                 else format_values fmt a b (NumberMismatch path a b tol))
          \/ (r = Raise OverflowError /\ has_float a && has_float b = false)))
  /\ _cmp_bounded fmt a 0 b tol path = Raise RecursionError.
Proof.
  intros Hkind. cbv zeta.
  assert (both_dicts a b = false) as Hd by (by destruct a, b).
  assert (both_lists a b = false) as Hl by (by destruct a, b).
  rewrite cmp_bounded_leaf_unfold by done.
  split; [|split].
  - intros ->.
    assert (value_eq a b = false) as -> by (by destruct a, b).
    unfold format_values. repeat split.
    + by intros -> ->.
    + by intros e ->.
    + by intros e -> ->.
    + intros msg. destruct (fmt a); [done|]. by destruct (fmt b).
  - intros Hnum. rewrite Hnum. split; [by intros []|].
    apply andb_prop in Hnum as [Ha Hb]. unfold has_float.
    assert (forall c, match to_float c with
                      | Return _ => True
                      | Raise e => is_number c = true -> e = OverflowError
                      end) as Hexn.
    { intros [| [] |z| | | |]; simpl; try done;
        unfold float_of_int; destruct (binary_normalize _ _ _ _ _); done. }
    pose proof (Hexn a) as Hea. pose proof (Hexn b) as Heb.
    destruct (to_float a) as [af|ea]; simpl.
    + destruct (to_float b) as [bf|eb]; simpl.
      * left. by exists af, bf.
      * right. by rewrite Heb.
    + right. by rewrite Hea.
  - by destruct a.
Qed.

(** [True] against the integer 1: different kinds, declared equal even at
    tolerance 0. *)
Lemma cmp_true_one_match :
  kind_of (DBool true) <> kind_of (DInt 1) /\
  _cmp (DBool true) (DInt 1) float_zero (u "$") = Return (true, Empty).
Proof. split; [discriminate|reflexivity]. Qed.

(** [True] against an integer of 401 digits: neither a match nor a
    mismatch. *)
Lemma cmp_true_huge_overflow :
  _cmp (DBool true) (DInt (10 ^ 400)) f_0_02 (u "$") = Raise OverflowError.
Proof. by vm_compute. Qed.

Lemma cmp_bounded_mismatched_kinds_witness :
  _cmp_bounded no_format_error (DDict []) 1 (DList []) f_0_02 (u "$")
  = Return (false, ValueMismatch (u "$") (DDict []) (DList []))
  /\ (forall msg,
        _cmp_bounded no_format_error (DInt 0) 1 DNull f_0_02 (u "$")
        <> Return (true, msg))
  /\ _cmp_bounded no_format_error (DInt 0) 0 DNull f_0_02 (u "$")
     = Raise RecursionError
  /\ _cmp_bounded no_format_error (DBool false) 1 (DFloat f_one) f_0_02
       (u "$")
     = Return (false,
               NumberMismatch (u "$") (DBool false) (DFloat f_one) f_0_02).
Proof.
  split; [|split; [|split]].
  - destruct (cmp_bounded_mismatched_kinds no_format_error 0 (DDict [])
                (DList []) f_0_02 (u "$")) as (Hval & _ & _);
      [discriminate|].
    destruct (Hval eq_refl) as (_ & Hret & _). by apply Hret.
  - destruct (cmp_bounded_mismatched_kinds no_format_error 0 (DInt 0) DNull
                f_0_02 (u "$")) as (Hval & _ & _); [discriminate|].
    destruct (Hval eq_refl) as (_ & _ & _ & _ & Hne). exact Hne.
  - destruct (cmp_bounded_mismatched_kinds no_format_error 0 (DInt 0) DNull
                f_0_02 (u "$")) as (_ & _ & Hrec); [discriminate|].
    exact Hrec.
  - destruct (cmp_bounded_mismatched_kinds no_format_error 0 (DBool false)
                (DFloat f_one) f_0_02 (u "$")) as (_ & Hnum & _);
      [discriminate|].
    destruct (Hnum eq_refl) as (_ & [(af & bf & Ha & Hb & Hr)|(Hr & _)]).
    + rewrite Hr. injection Ha as <-. injection Hb as <-. reflexivity.
    + discriminate Hr.
Defined.


(** ** Statements of the script, one by one *)

Lemma io_bind_unfold {A B : Type} (m : io A) (k : A -> io B) h :
  (m ≫= k) h =
  match m h with
  | (h', Return a) => k a h'
  | (h', Raise e) => (h', Raise e)
  end.
Proof. reflexivity. Qed.

(** Runs the binds and the elementary statements of a goal. *)
Ltac io_run :=
  cbv [mbind io_bind mret io_ret emit raise lift exists_ _run].

Lemma write_stream_eq (title s : pystr) h :
  write_stream title s h = (h ++ stream_report title s, Return ()).
Proof.
  unfold write_stream, stream_report.
  case_bool_decide; [by rewrite app_nil_r|].
  destruct (ends_with_newline s); io_run; simpl; by rewrite <- ?app_assoc.
Qed.

Lemma require_ok_eq (p : CompletedProcess) (what : pystr) h :
  _require_ok p what h =
  if (returncode p =? 0)%Z then (h, Return ())
  else (h ++ failure_report p what,
        Raise (SystemExit (ExitCode (returncode p)))).
Proof.
  unfold _require_ok, failure_report.
  destruct (returncode p =? 0)%Z; [done|].
  io_run. rewrite !write_stream_eq. by rewrite <- ?app_assoc.
Qed.

Lemma run_moon_dump_eq (w : World) (font_path text : pystr) (size : float) h :
  _run_moon_dump w font_path text size h =
  let cmd := WasmtimeRun font_path text size in
  let p := run_process w h cmd in
  if (returncode p =? 0)%Z then (h ++ [Spawn cmd], Return (strip (stdout p)))
  else (h ++ Spawn cmd :: failure_report p (u "wasmtime run (moon_swash_dump)"),
        Raise (SystemExit (ExitCode (returncode p)))).
Proof.
  unfold _run_moon_dump. io_run. rewrite require_ok_eq.
  destruct (returncode _ =? 0)%Z; [done|]. by rewrite <- app_assoc.
Qed.

Lemma run_rust_dump_eq (w : World) (font_path text : pystr) (size : float) h :
  _run_rust_dump w font_path text size h =
  let cmd := CargoRun font_path text size in
  let p := run_process w h cmd in
  if negb (path_exists w h (path_join (SWASH_REFERENCE_DIR w) (u "Cargo.toml")))
  then (h, Raise (SystemExit (ExitText ReferenceNotFound)))
  else if (returncode p =? 0)%Z then
    (h ++ [Spawn cmd], Return (strip (stdout p)))
  else (h ++ Spawn cmd ::
          failure_report p (u "cargo run (swash-reference dump_json)"),
        Raise (SystemExit (ExitCode (returncode p)))).
Proof.
  unfold _run_rust_dump. io_run.
  destruct (negb _); [done|]. io_run. rewrite require_ok_eq.
  destruct (returncode _ =? 0)%Z; [done|]. by rewrite <- app_assoc.
Qed.

(** ** [str.strip()] *)

Lemma lstrip_spec (s : pystr) :
  exists pre, s = pre ++ lstrip s /\ Forall (fun c => isspace c = true) pre.
Proof.
  induction s as [|c s (pre & Hs & Hpre)]; [by exists []|].
  simpl. destruct (isspace c) eqn:Hc.
  - exists (c :: pre). split; [by rewrite <- app_comm_cons, <- Hs|].
    by constructor.
  - by exists [].
Qed.

Lemma lstrip_head (s : pystr) (c : N) :
  head (lstrip s) = Some c -> isspace c = false.
Proof.
  induction s as [|d s IH]; [done|]. simpl.
  destruct (isspace d) eqn:Hd; [done|]. simpl. congruence.
Qed.

Lemma rstrip_spec (s : pystr) :
  exists post, s = rstrip s ++ post /\ Forall (fun c => isspace c = true) post.
Proof.
  destruct (lstrip_spec (reverse s)) as (pre & Hs & Hpre).
  exists (reverse pre). split; [|by apply Forall_reverse].
  unfold rstrip. by rewrite <- reverse_app, <- Hs, reverse_involutive.
Qed.

Lemma rstrip_last (s : pystr) (c : N) :
  last (rstrip s) = Some c -> isspace c = false.
Proof. unfold rstrip. rewrite last_reverse. apply lstrip_head. Qed.

Lemma strip_spec (s : pystr) :
  (exists pre post, s = pre ++ strip s ++ post /\
     Forall (fun c => isspace c = true) pre /\
     Forall (fun c => isspace c = true) post)
  /\ (forall c, head (strip s) = Some c -> isspace c = false)
  /\ (forall c, last (strip s) = Some c -> isspace c = false).
Proof.
  destruct (rstrip_spec s) as (post & Hs & Hpost).
  destruct (lstrip_spec (rstrip s)) as (pre & Hr & Hpre).
  fold (strip s) in Hr. split; [|split].
  - exists pre, post. split; [|done].
    rewrite Hs at 1. rewrite Hr at 1. by rewrite <- app_assoc.
  - apply lstrip_head.
  - intros c Hc. apply (rstrip_last s). rewrite Hr.
    rewrite last_app, Hc. done.
Qed.

(** ** What a producer run returns (lines 106-150) *)

(** C9 (as amended).  When the producer exits with status 0 the run returns
    its standard output stripped by [str.strip()]: the whitespace at both
    ends is removed, the leading one too, and what is between is returned
    unchanged. *)
Theorem run_dump_strips_both_ends (w : World) (font_path text : pystr)
    (size : float) (h : list event) :
  (returncode (run_process w h (WasmtimeRun font_path text size)) = 0 ->
   _run_moon_dump w font_path text size h =
   (h ++ [Spawn (WasmtimeRun font_path text size)],
    Return (strip (stdout (run_process w h
                             (WasmtimeRun font_path text size))))))
  /\ (path_exists w h (path_join (SWASH_REFERENCE_DIR w) (u "Cargo.toml"))
      = true ->
      returncode (run_process w h (CargoRun font_path text size)) = 0 ->
      _run_rust_dump w font_path text size h =
      (h ++ [Spawn (CargoRun font_path text size)],
       Return (strip (stdout (run_process w h
                                (CargoRun font_path text size))))))
  /\ (forall out : pystr,
        (exists pre post, out = pre ++ strip out ++ post /\
           Forall (fun c => isspace c = true) pre /\
           Forall (fun c => isspace c = true) post)
        /\ (forall c, head (strip out) = Some c -> isspace c = false)
        /\ (forall c, last (strip out) = Some c -> isspace c = false)).
Proof.
  split; [|split].
  - intros Hrc. rewrite run_moon_dump_eq. simpl. by rewrite Hrc.
  - intros Hex Hrc. rewrite run_rust_dump_eq. simpl. by rewrite Hex, Hrc.
  - apply strip_spec.
Qed.

(** A producer prints [ 1] and a newline: without its trailing whitespace
    the output is [ 1], but the run returns [1]. *)
Lemma run_dump_drops_leading_space :
  stdout (run_process (toy_world (quiet [])) []
            (WasmtimeRun (u "f") (u "a") f_14)) = u " 1" ++ nl
  /\ rstrip (u " 1" ++ nl) = u " 1"
  /\ _run_moon_dump (toy_world (quiet [])) (u "f") (u "a") f_14 []
     = ([Spawn (WasmtimeRun (u "f") (u "a") f_14)], Return (u "1"))
  /\ _run_rust_dump (toy_world (quiet [])) (u "f") (u "a") f_14 []
     = ([Spawn (CargoRun (u "f") (u "a") f_14)], Return (u "1")).
Proof. repeat split. Qed.

Lemma run_dump_strips_both_ends_witness :
  _run_moon_dump (toy_world (quiet [])) (u "f") (u "b") f_14 []
  = ([Spawn (WasmtimeRun (u "f") (u "b") f_14)], Return (u "2"))
  /\ _run_rust_dump (toy_world (quiet [])) (u "f") (u "b") f_14 []
     = ([Spawn (CargoRun (u "f") (u "b") f_14)], Return (u "1")).
Proof.
  destruct (run_dump_strips_both_ends (toy_world (quiet [])) (u "f") (u "b")
              f_14 []) as (Hmoon & Hrust & _).
  split; [apply Hmoon|apply Hrust]; reflexivity.
Defined.

(** ** One case of the suite (lines 205-226) *)

Lemma stream_report_Forall (P : event -> Prop) title s :
  (forall t, P (Stderr t)) -> Forall P (stream_report title s).
Proof.
  intros HP. unfold stream_report. case_bool_decide; [done|].
  destruct (ends_with_newline s); simpl; auto.
Qed.

Lemma failure_report_Forall (P : event -> Prop) p what :
  (forall t, P (Stderr t)) -> Forall P (failure_report p what).
Proof.
  intros HP. unfold failure_report.
  repeat apply Forall_app_2; auto using stream_report_Forall.
Qed.

(** Splits a goal about [case] along the tests of the code, in order. *)
Ltac case_split :=
  repeat (io_run; cbv beta iota zeta;
    match goal with
    | |- context [_run_rust_dump ?w ?f ?t ?s ?h] =>
        rewrite (run_rust_dump_eq w f t s h)
    | |- context [_run_moon_dump ?w ?f ?t ?s ?h] =>
        rewrite (run_moon_dump_eq w f t s h)
    | |- context [parse ?w ?who ?out] => unfold parse
    | |- context [json_loads ?w ?s] => destruct (json_loads w s) eqn:?
    | |- context [_cmp ?a ?b ?t ?p] =>
        destruct (_cmp a b t p) as [[[] ?]|?] eqn:?
    | |- context [if ?b then _ else _] => destruct b eqn:?
    end).

Lemma case_returns (w : World) (args : Args) (font font_rel t : pystr) h h' :
  case w args font font_rel t h = (h', Return ()) ->
  h' = h ++ passing_trace args font_rel t.
Proof.
  unfold case, passing_trace. case_split; simpl negb; cbv iota; case_split;
    intros [= <-]; by rewrite <- ?app_assoc.
Qed.

Lemma case_raises (w : World) (args : Args) (font font_rel t : pystr)
    h h' e :
  case w args font font_rel t h = (h', Raise e) ->
  exit_status (@Raise () e) <> 0 /\
  exists tail, h' = h ++ tail /\
    Forall (failing_case_event args font_rel t) tail /\
    Forall (fun ev => match ev with Stdout _ => False | _ => True end) tail.
Proof.
  unfold case. case_split; simpl negb; cbv iota; case_split;
    intros [= <- <-];
    try match goal with
        | H : _cmp ?a ?b ?t ?p = Raise _ |- _ =>
            let Ho := fresh in
            pose proof (cmp_outcome a b t p) as Ho; rewrite H in Ho;
            destruct Ho as [-> _]
        end;
    (split; [simpl; try done; by apply Z.eqb_neq|]);
    rewrite <- ?app_assoc; eexists; (split; [try reflexivity|]).
  all: try (by rewrite app_nil_r).
  all: split; repeat first
    [ by apply failure_report_Forall | apply Forall_nil_2
    | apply Forall_cons_2 | apply Forall_app_2 | done | by left | by right ].
Qed.

Lemma case_matches_returns (w : World) (args : Args)
    (font font_rel t : pystr) h :
  case_matches w args font_rel t h ->
  case w args font font_rel t h
  = (h ++ passing_trace args font_rel t, Return ()).
Proof.
  intros (rust_out & moon_out & r & m & Hok & Hr & Hm & Hcmp).
  destruct Hok as (Hex & Hrc1 & Hrc2 & -> & ->).
  unfold case, passing_trace. io_run.
  rewrite run_rust_dump_eq. cbv zeta. rewrite Hex, Hrc1.
  change (0 =? 0) with true. simpl negb. cbv beta iota.
  rewrite run_moon_dump_eq. cbv zeta. rewrite Hrc2.
  change (0 =? 0) with true. cbv beta iota.
  unfold parse. rewrite Hr, Hm. io_run. rewrite Hcmp. simpl.
  by rewrite <- !app_assoc.
Qed.

Lemma case_mismatches_raises (w : World) (args : Args)
    (font font_rel t : pystr) h msg rust_out moon_out r m :
  producers_ok w args font_rel t h rust_out moon_out ->
  json_loads w rust_out = inr r -> json_loads w moon_out = inr m ->
  _cmp r m (tol args) (u "$") = Return (false, msg) ->
  case w args font font_rel t h =
  (h ++ [Spawn (CargoRun font_rel t (size args));
         Spawn (WasmtimeRun font_rel t (size args));
         Stderr (MismatchFor t (size args) font); Stderr (Line msg)] ++
        dump_report args rust_out moon_out,
   Raise (SystemExit (ExitCode 1))).
Proof.
  intros Hok Hr Hm Hcmp.
  destruct Hok as (Hex & Hrc1 & Hrc2 & -> & ->).
  unfold case, dump_report. io_run.
  rewrite run_rust_dump_eq. cbv zeta. rewrite Hex, Hrc1.
  change (0 =? 0) with true. simpl negb. cbv beta iota.
  rewrite run_moon_dump_eq. cbv zeta. rewrite Hrc2.
  change (0 =? 0) with true. cbv beta iota.
  unfold parse. rewrite Hr, Hm. io_run. rewrite Hcmp.
  change (negb false) with true. cbv beta iota.
  destruct (dump args); io_run; rewrite <- !app_assoc; reflexivity.
Qed.

Lemma case_parse_fails_raises (w : World) (args : Args)
    (font font_rel t : pystr) h :
  case_parse_fails w args font_rel t h ->
  exists who err raw,
    case w args font font_rel t h =
    (h ++ [Spawn (CargoRun font_rel t (size args));
           Spawn (WasmtimeRun font_rel t (size args))],
     Raise (SystemExit (ExitText (ParseFailed who err raw)))).
Proof.
  intros (rust_out & moon_out & Hok & Hfail).
  destruct Hok as (Hex & Hrc1 & Hrc2 & -> & ->).
  unfold case. io_run.
  rewrite run_rust_dump_eq. cbv zeta. rewrite Hex, Hrc1.
  change (0 =? 0) with true. simpl negb. cbv beta iota.
  rewrite run_moon_dump_eq. cbv zeta. rewrite Hrc2.
  change (0 =? 0) with true. cbv beta iota.
  unfold parse.
  destruct (json_loads w (strip (stdout (run_process w h _)))) as [err1|r]
    eqn:Hr; io_run.
  - do 3 eexists. by rewrite <- !app_assoc.
  - destruct Hfail as [[err Herr]|[err Herr]]; [congruence|].
    rewrite Herr. io_run. do 3 eexists. by rewrite <- !app_assoc.
Qed.

(** ** The loop over the texts *)

Lemma for_each_first_raise {A : Type} (body : A -> io ()) pre x post
    h h1 h2 e :
  for_each pre body h = (h1, Return ()) ->
  body x h1 = (h2, Raise e) ->
  for_each (pre ++ x :: post) body h = (h2, Raise e).
Proof.
  revert h. induction pre as [|y pre IH]; intros h; simpl.
  - intros [= <-] Hx. io_run. by rewrite Hx.
  - io_run. destruct (body y h) as [hy [[]|ey]]; [|done].
    intros Hpre Hx. by apply IH.
Qed.

Lemma for_each_return_trace {A : Type} (body : A -> io ())
    (tr : A -> list event) xs h h' :
  (forall x h h', body x h = (h', Return ()) -> h' = h ++ tr x) ->
  for_each xs body h = (h', Return ()) ->
  h' = h ++ flat_map tr xs.
Proof.
  intros Hbody. revert h. induction xs as [|x xs IH]; intros h; simpl.
  - intros [= <-]. by rewrite app_nil_r.
  - io_run. destruct (body x h) as [hx [[]|ex]] eqn:Hx; [|done].
    intros Hxs. apply Hbody in Hx as ->. apply IH in Hxs as ->.
    by rewrite <- app_assoc.
Qed.

Lemma for_each_all_return {A : Type} (body : A -> io ())
    (tr : A -> list event) xs h :
  (forall x h, x ∈ xs -> body x h = (h ++ tr x, Return ())) ->
  for_each xs body h = (h ++ flat_map tr xs, Return ()).
Proof.
  revert h. induction xs as [|x xs IH]; intros h Hbody; simpl.
  - by rewrite app_nil_r.
  - io_run. rewrite Hbody by left.
    fold (for_each xs body). rewrite IH; [by rewrite <- app_assoc|].
    intros y hy Hy. apply Hbody. by right.
Qed.

Lemma written_stdout_app tr1 tr2 :
  written_stdout (tr1 ++ tr2) = written_stdout tr1 ++ written_stdout tr2.
Proof. apply omap_app. Qed.

Lemma written_stdout_passing args font_rel (texts : list pystr) :
  written_stdout (flat_map (passing_trace args font_rel) texts)
  = OkText <$> texts.
Proof.
  induction texts as [|t texts IH]; [done|].
  rewrite fmap_cons, <- IH. reflexivity.
Qed.

Lemma written_stdout_failing args font_rel t tail :
  Forall (failing_case_event args font_rel t) tail ->
  written_stdout tail = [].
Proof.
  induction 1 as [|ev tail Hev _ IH]; [done|].
  destruct ev; try done; simpl in *; exact IH.
Qed.

(** ** Before the loop: lines 192-202 *)

Lemma build_moon_dump_eq (w : World) h :
  _build_moon_dump w h =
  let p := run_process w h MoonBuild in
  let h' := h ++ [Spawn MoonBuild] in
  if (returncode p =? 0)%Z then
    if negb (path_exists w h' (MOON_DUMP_WASM w)) then
      (h', Raise (SystemExit (ExitText (WasmNotFound (MOON_DUMP_WASM w)))))
    else if negb (path_exists w h' (SPECTEST_WASM w)) then
      (h', Raise (SystemExit (ExitText (SpectestNotFound (SPECTEST_WASM w)))))
    else (h', Return ())
  else (h ++ Spawn MoonBuild ::
          failure_report p (u "moon build (tools/moon_swash_dump)"),
        Raise (SystemExit (ExitCode (returncode p)))).
Proof.
  unfold _build_moon_dump. io_run. rewrite require_ok_eq.
  destruct (returncode _ =? 0)%Z; [|by rewrite <- app_assoc].
  io_run. destruct (negb _); [done|]. io_run. by destruct (negb _).
Qed.

(** The prologue runs no producer. *)
Lemma prologue_trace (w : World) (args : Args) h h0 r :
  prologue w args h = (h0, r) ->
  exists tr, h0 = h ++ tr /\ Forall (fun ev => is_producer_run ev = false) tr.
Proof.
  unfold prologue, _pick_default_font, _prepare_font.
  repeat (io_run; cbv beta iota zeta;
    match goal with
    | |- context [font args] => destruct (font args)
    | |- context [relative_to ?p ?q] => destruct (relative_to p q)
    | |- context [if ?b then _ else _] => destruct b eqn:?
    end);
    intros [= <- <-]; rewrite <- ?app_assoc; eexists;
    (split; [try reflexivity|]).
  all: try (by rewrite app_nil_r).
  all: repeat constructor.
Qed.

(** ** The suite driver (lines 204-226) *)

Lemma main_eq (w : World) (args : Args) (font font_rel : pystr)
    (texts : list pystr) h h0 hb :
  prologue w args h = (h0, Return (font, font_rel, texts)) ->
  _build_moon_dump w h0 = (hb, Return ()) ->
  main w args h = for_each texts (case w args font font_rel) hb.
Proof. intros Hpro Hbuild. unfold main. io_run. by rewrite Hpro, Hbuild. Qed.

(** C7.  The texts are taken in order and the run stops at the first case
    that fails: [main] ends with the exception of that case, whose exit
    status is not 0; before it, every earlier case left its two producer
    runs and its one line on stdout, and these lines are all that stdout
    received; after it nothing runs: every process started in the loop is
    a producer run on an earlier text or on the failing one, and the
    writes on stderr are those of the failing case alone. *)
Theorem suite_stops_at_first_failure (w : World) (args : Args)
    (font font_rel : pystr) (pre post : list pystr) (t : pystr)
    (h h0 hb h1 h2 : list event) (e : exn) :
  prologue w args h = (h0, Return (font, font_rel, pre ++ t :: post)) ->
  _build_moon_dump w h0 = (hb, Return ()) ->
  for_each pre (case w args font font_rel) hb = (h1, Return ()) ->
  case w args font font_rel t h1 = (h2, Raise e) ->
  main w args h = (h2, Raise e)
  /\ exit_status (@Raise () e) <> 0
  /\ exists tail,
       h2 = hb ++ flat_map (passing_trace args font_rel) pre ++ tail
       /\ Forall (failing_case_event args font_rel t) tail
       /\ written_stdout (flat_map (passing_trace args font_rel) pre ++ tail)
          = OkText <$> pre
       /\ (forall cmd,
             Spawn cmd ∈ flat_map (passing_trace args font_rel) pre ++ tail ->
             exists t', t' ∈ pre ++ [t] /\
               (cmd = CargoRun font_rel t' (size args) \/
                cmd = WasmtimeRun font_rel t' (size args))).
Proof.
  intros Hpro Hbuild Hpre Hcase.
  split; [|split].
  - rewrite (main_eq w args font font_rel _ h h0 hb) by done.
    by apply (for_each_first_raise _ pre t post hb h1 h2).
  - by apply case_raises in Hcase as [Hstatus _].
  - apply case_raises in Hcase as (_ & tail & -> & Htail & _).
    apply (for_each_return_trace _ (passing_trace args font_rel)) in Hpre
      as ->; [|intros ???; apply case_returns].
    exists tail. split; [by rewrite <- app_assoc|]. split; [done|]. split.
    + rewrite written_stdout_app, written_stdout_passing.
      rewrite (written_stdout_failing args font_rel t) by done.
      apply app_nil_r.
    + intros cmd Hin. apply elem_of_app in Hin as [Hin|Hin].
      * apply list_elem_of_In, in_flat_map in Hin as (t' & Ht' & Hin).
        exists t'. split; [apply elem_of_app; left; by apply list_elem_of_In|].
        unfold passing_trace in Hin. simpl in Hin.
        destruct Hin as [[= <-]|[[= <-]|[[=]|[]]]]; auto.
      * exists t. split; [apply elem_of_app; right; by left|].
        rewrite Forall_forall in Htail. apply (Htail _ Hin).
Qed.

Lemma suite_stops_at_first_failure_witness :
  main (toy_world (quiet [])) (toy_args toy_texts) []
  = (toy_h2, Raise (SystemExit (ExitCode 1)))
  /\ exit_status (@Raise () (SystemExit (ExitCode 1))) <> 0.
Proof.
  destruct (suite_stops_at_first_failure (toy_world (quiet []))
              (toy_args toy_texts) (u "/fonts/font.ttf") toy_font_rel
              [u "a"] [u "c"] (u "b") [] toy_h0 toy_hb toy_h1 toy_h2
              (SystemExit (ExitCode 1)))
    as (Hmain & Hstatus & _).
  - vm_compute. reflexivity.
  - vm_compute. reflexivity.
  - vm_compute. reflexivity.
  - vm_compute. reflexivity.
  - split; [exact Hmain|exact Hstatus].
Defined.

(** ** Exit status *)

Lemma suite_matches_returns (w : World) (args : Args) (font font_rel : pystr)
    (texts : list pystr) :
  forall h,
    suite_matches w args font_rel texts h ->
    for_each texts (case w args font font_rel) h
    = (h ++ flat_map (passing_trace args font_rel) texts, Return ()).
Proof.
  induction texts as [|t texts IH]; intros h Hall.
  - simpl. by rewrite app_nil_r.
  - destruct Hall as [Ht Hrest].
    change (for_each (t :: texts) (case w args font font_rel) h)
      with ((case w args font font_rel t;;
             for_each texts (case w args font font_rel)) h).
    rewrite io_bind_unfold, (case_matches_returns w args font font_rel t h Ht).
    rewrite (IH _ Hrest). simpl. by rewrite <- app_assoc.
Qed.

(** C8 (as amended).  After the prologue: when the build subprocess ends
    with a return code other than 0, [main] raises [SystemExit] with that
    code and no producer has run; the status of the process is the exit
    status of the build itself when it exited with a status from 1 to 255,
    and [256 - n] when it was killed by the signal [n], whose return code
    is [-n].  When the build succeeds
    and every case matches within tolerance, each from the trace the cases
    before it leave, [main] returns and the status is 0; when the cases
    before one match and that one is a mismatch reported by the comparator,
    or an output that does not parse, the status is 1. *)
Theorem process_status_mapping (w : World) (args : Args)
    (font font_rel : pystr) (texts : list pystr) (h h0 : list event) :
  prologue w args h = (h0, Return (font, font_rel, texts)) ->
  (forall rc, returncode (run_process w h0 MoonBuild) = rc -> rc <> 0 ->
     (main w args h).2 = Raise (SystemExit (ExitCode rc))
     /\ (0 < rc < 256 -> process_status (main w args h).2 = rc)
     /\ (-256 < rc < 0 -> process_status (main w args h).2 = 256 + rc)
     /\ exists tr, (main w args h).1 = h ++ tr /\
          Forall (fun ev => is_producer_run ev = false) tr)
  /\ (forall hb, _build_moon_dump w h0 = (hb, Return ()) ->
        (suite_matches w args font_rel texts hb ->
           main w args h =
           (hb ++ flat_map (passing_trace args font_rel) texts, Return ())
           /\ process_status (main w args h).2 = 0)
        /\ (forall pre t post,
              texts = pre ++ t :: post ->
              suite_matches w args font_rel pre hb ->
              let h1 := hb ++ flat_map (passing_trace args font_rel) pre in
              (exists msg, case_mismatches w args font_rel t h1 msg) \/
              case_parse_fails w args font_rel t h1 ->
              process_status (main w args h).2 = 1)).
Proof.
  intros Hpro. split.
  - intros rc Hrc Hne. apply Z.eqb_neq in Hne.
    assert (main w args h =
            (h0 ++ Spawn MoonBuild ::
               failure_report (run_process w h0 MoonBuild)
                 (u "moon build (tools/moon_swash_dump)"),
             Raise (SystemExit (ExitCode rc))))
      as ->.
    { unfold main. io_run. rewrite Hpro, build_moon_dump_eq.
      cbv zeta. by rewrite Hrc, Hne. }
    unfold process_status. cbn [fst snd exit_status].
    split; [done|]. split; [|split].
    + intros Hrange. apply Z.mod_small. lia.
    + intros Hrange.
      replace (rc mod 256) with ((rc + 1 * 256) mod 256)
        by (apply Z.mod_add; lia).
      rewrite Z.mod_small; lia.
    + apply prologue_trace in Hpro as (tr & -> & Htr).
      eexists. split; [by rewrite <- app_assoc|].
      apply Forall_app_2; [done|]. apply Forall_cons_2; [done|].
      by apply failure_report_Forall.
  - intros hb Hbuild.
    rewrite (main_eq w args font font_rel texts h h0 hb) by done. split.
    + intros Hall. by rewrite (suite_matches_returns w args font).
    + intros pre t post -> Hpre h1 Hcase.
      apply (suite_matches_returns w args font) in Hpre. fold h1 in Hpre.
      destruct Hcase as [[msg Hmis]|Hparse].
      * destruct Hmis as (rust_out & moon_out & r & m & Hok & Hr & Hm & Hcmp).
        rewrite (for_each_first_raise _ pre t post hb h1 _
                   (SystemExit (ExitCode 1)) Hpre
                   (case_mismatches_raises w args font font_rel t h1 msg
                      rust_out moon_out r m Hok Hr Hm Hcmp)).
        done.
      * apply (case_parse_fails_raises w args font) in Hparse
          as (who & err & raw & Hcase).
        by rewrite (for_each_first_raise _ pre t post hb h1 _ _ Hpre Hcase).
Qed.

(** A build killed by signal 9 has the return code -9, and the process
    ends with status 247: the status of the build is not passed through
    unchanged. *)
Lemma build_killed_status :
  returncode (run_process (toy_world killed_build) toy_h0 MoonBuild) = -9
  /\ (main (toy_world killed_build) (toy_args toy_texts) []).2
     = Raise (SystemExit (ExitCode (-9)))
  /\ process_status (main (toy_world killed_build) (toy_args toy_texts) []).2
     = 247.
Proof. repeat split. Qed.

Lemma process_status_mapping_witness :
  process_status (main (toy_world failed_build) (toy_args toy_texts) []).2 = 2
  /\ process_status
       (main (toy_world (quiet [])) (toy_args [u "a"; u "c"]) []).2 = 0
  /\ process_status (main (toy_world (quiet [])) (toy_args toy_texts) []).2
     = 1.
Proof.
  split; [|split].
  - destruct (process_status_mapping (toy_world failed_build)
                (toy_args toy_texts) (u "/fonts/font.ttf") toy_font_rel
                toy_texts [] toy_h0) as (Hfailed & _).
    + vm_compute. reflexivity.
    + destruct (Hfailed 2) as (_ & Hstatus & _).
      * reflexivity.
      * discriminate.
      * apply Hstatus. lia.
  - destruct (process_status_mapping (toy_world (quiet []))
                (toy_args [u "a"; u "c"]) (u "/fonts/font.ttf") toy_font_rel
                [u "a"; u "c"] [] toy_h0) as (_ & Hbuilt).
    + vm_compute. reflexivity.
    + destruct (Hbuilt toy_hb) as ((_ & Hstatus) & _).
      * vm_compute. reflexivity.
      * repeat split;
          exists (u "1"), (u "1"), (DInt 1), (DInt 1);
          repeat split; vm_compute; reflexivity.
      * exact Hstatus.
  - destruct (process_status_mapping (toy_world (quiet []))
                (toy_args toy_texts) (u "/fonts/font.ttf") toy_font_rel
                toy_texts [] toy_h0) as (_ & Hbuilt).
    + vm_compute. reflexivity.
    + destruct (Hbuilt toy_hb) as (_ & Hfirst).
      * vm_compute. reflexivity.
      * apply (Hfirst [u "a"] (u "b") [u "c"]).
        -- reflexivity.
        -- split; [|exact I].
           exists (u "1"), (u "1"), (DInt 1), (DInt 1).
           repeat split; vm_compute; reflexivity.
        -- left. exists (NumberMismatch (u "$") (DInt 1) (DInt 2) f_0_02).
           exists (u "1"), (u "2"), (DInt 1), (DInt 2).
           repeat split; vm_compute; reflexivity.
Defined.

(** * Further properties of the comparator *)

(** ** The message of a verdict *)

Lemma cmp_leaf_shape (a b : doc) tol path ok msg :
  both_dicts a b = false -> both_lists a b = false ->
  _cmp a b tol path = Return (ok, msg) ->
  if ok then msg = Empty
  else exists suffix, message_path msg = Some (path ++ suffix).
Proof.
  intros Hd Hl. destruct (is_number a && is_number b) eqn:Hnum.
  - apply andb_prop in Hnum as [Ha Hb]. rewrite cmp_number_unfold by done.
    destruct (to_float a) as [af|]; [|done].
    destruct (to_float b) as [bf|]; [|done]. simpl.
    destruct (float_le _ tol); intros [= <- <-]; [done|].
    exists []. simpl. by rewrite app_nil_r.
  - rewrite cmp_other_unfold by done.
    destruct (value_eq a b); intros [= <- <-]; [done|].
    exists []. simpl. by rewrite app_nil_r.
Qed.

Lemma cmp_items_shape tol path (xs ys : list doc) i ok msg :
  Forall (fun x => forall b path ok msg,
            _cmp x b tol path = Return (ok, msg) ->
            if ok then msg = Empty
            else exists suffix, message_path msg = Some (path ++ suffix)) xs ->
  cmp_items _cmp tol path i xs ys = Return (ok, msg) ->
  if ok then msg = Empty
  else exists suffix, message_path msg = Some (path ++ suffix).
Proof.
  intros Hxs. revert i ys.
  induction Hxs as [|x xs Hx _ IH]; intros i [|y ys]; simpl;
    try (by intros [= <- <-]).
  specialize (Hx y (path_index path i)).
  destruct (_cmp x y tol (path_index path i)) as [[[] m]|e]; simpl;
    [apply IH| |done].
  intros [= <- <-]. destruct (Hx false m eq_refl) as [suffix Hm].
  exists (u "[" ++ str_of_nat i ++ u "]" ++ suffix).
  rewrite Hm. unfold path_index. by rewrite <- !app_assoc.
Qed.

Lemma cmp_keys_shape tol path (da db : list (pystr * doc)) ks ok msg :
  Forall (fun kv => forall b path ok msg,
            _cmp (snd kv) b tol path = Return (ok, msg) ->
            if ok then msg = Empty
            else exists suffix, message_path msg = Some (path ++ suffix)) da ->
  cmp_keys ks (prod_map id _cmp <$> da) db tol path = Return (ok, msg) ->
  if ok then msg = Empty
  else exists suffix, message_path msg = Some (path ++ suffix).
Proof.
  intros Hda. induction ks as [|k ks IH]; simpl; [by intros [= <- <-]|].
  rewrite getitem_fmap.
  destruct (getitem da k) as [x|] eqn:Hx; [|done].
  destruct (getitem db k) as [y|]; [|done]. simpl.
  rewrite Forall_forall in Hda.
  pose proof (Hda (k, x) (getitem_Some_elem_of _ _ _ Hx) y (path_key path k))
    as Hxy. simpl in Hxy.
  destruct (_cmp x y tol (path_key path k)) as [[[] m]|e]; simpl;
    [apply IH| |done].
  intros [= <- <-]. destruct (Hxy false m eq_refl) as [suffix Hm].
  exists (u "." ++ k ++ suffix).
  rewrite Hm. unfold path_key. by rewrite <- !app_assoc.
Qed.

Lemma cmp_shape (a b : doc) tol path ok msg :
  _cmp a b tol path = Return (ok, msg) ->
  if ok then msg = Empty
  else exists suffix, message_path msg = Some (path ++ suffix).
Proof.
  revert b path ok msg.
  induction a as [|c|z|f|s|l IH|items IH] using doc_induction;
    intros b path ok msg; destruct b as [|c'|z'|f'|s'|l'|items'];
    try (by apply cmp_leaf_shape).
  - rewrite cmp_list_unfold. destruct (negb _).
    + intros [= <- <-]. exists []. simpl. by rewrite app_nil_r.
    + by apply cmp_items_shape.
  - rewrite cmp_dict_unfold. case_bool_decide.
    + intros [= <- <-]. exists []. simpl. by rewrite app_nil_r.
    + by apply cmp_keys_shape.
Qed.

(** X1.  A verdict is coherent and located: with the flag [True] the
    message is empty; with the flag [False] the message is a mismatch
    report whose path starts with the path the call was given. *)
Theorem cmp_message_located (a b : doc) (tol : float) (path : pystr)
    (ok : bool) (msg : message) :
  _cmp a b tol path = Return (ok, msg) ->
  (ok = true -> msg = Empty)
  /\ (ok = false ->
      exists suffix, message_path msg = Some (path ++ suffix)).
Proof.
  intros H. apply cmp_shape in H.
  destruct ok; split; try done; by intros _.
Qed.

Lemma cmp_message_located_witness :
  _cmp sample_ref sample_off f_0_02 (u "$")
  = Return (false,
            NumberMismatch (u "$.glyphs[0].x") (DFloat float_zero)
              (DFloat f_0_1) f_0_02)
  /\ exists suffix,
       message_path (NumberMismatch (u "$.glyphs[0].x") (DFloat float_zero)
                       (DFloat f_0_1) f_0_02)
       = Some (u "$" ++ suffix).
Proof.
  assert (_cmp sample_ref sample_off f_0_02 (u "$")
          = Return (false,
                    NumberMismatch (u "$.glyphs[0].x") (DFloat float_zero)
                      (DFloat f_0_1) f_0_02)) as H by (by vm_compute).
  split; [exact H|].
  apply (cmp_message_located _ _ _ _ _ _ H). reflexivity.
Defined.

(** ** The path plays no part in the verdict *)

Lemma cmp_leaf_flag (a b : doc) tol p q :
  both_dicts a b = false -> both_lists a b = false ->
  verdict_flag (_cmp a b tol p) = verdict_flag (_cmp a b tol q).
Proof.
  intros Hd Hl. destruct (is_number a && is_number b) eqn:Hnum.
  - apply andb_prop in Hnum as [Ha Hb]. rewrite !cmp_number_unfold by done.
    destruct (to_float a) as [af|]; [|done].
    destruct (to_float b) as [bf|]; [|done]. simpl.
    by destruct (float_le _ tol).
  - rewrite !cmp_other_unfold by done. by destruct (value_eq a b).
Qed.

Lemma cmp_items_flag tol p q (xs ys : list doc) i j :
  Forall (fun x => forall b p q,
            verdict_flag (_cmp x b tol p) = verdict_flag (_cmp x b tol q)) xs ->
  verdict_flag (cmp_items _cmp tol p i xs ys)
  = verdict_flag (cmp_items _cmp tol q j xs ys).
Proof.
  intros Hxs. revert i j ys.
  induction Hxs as [|x xs Hx _ IH]; intros i j [|y ys]; simpl; try done.
  specialize (Hx y (path_index p i) (path_index q j)).
  destruct (_cmp x y tol (path_index p i)) as [[[] m]|e],
           (_cmp x y tol (path_index q j)) as [[[] m']|e'];
    simpl in *; done.
Qed.

Lemma cmp_keys_flag tol p q (da db : list (pystr * doc)) ks :
  Forall (fun kv => forall b p q,
            verdict_flag (_cmp (snd kv) b tol p)
            = verdict_flag (_cmp (snd kv) b tol q)) da ->
  verdict_flag (cmp_keys ks (prod_map id _cmp <$> da) db tol p)
  = verdict_flag (cmp_keys ks (prod_map id _cmp <$> da) db tol q).
Proof.
  intros Hda. induction ks as [|k ks IH]; simpl; [done|].
  rewrite getitem_fmap.
  destruct (getitem da k) as [x|] eqn:Hx; [|done].
  destruct (getitem db k) as [y|]; [|done]. simpl.
  rewrite Forall_forall in Hda.
  pose proof (Hda (k, x) (getitem_Some_elem_of _ _ _ Hx) y
                (path_key p k) (path_key q k)) as Hxy. simpl in Hxy.
  destruct (_cmp x y tol (path_key p k)) as [[[] m]|e],
           (_cmp x y tol (path_key q k)) as [[[] m']|e'];
    simpl in *; done.
Qed.

(** X2.  The path serves the message only: the same two documents give the
    same flag, or raise the same exception, under any two paths. *)
Theorem cmp_flag_ignores_path (a b : doc) (tol : float) (p q : pystr) :
  verdict_flag (_cmp a b tol p) = verdict_flag (_cmp a b tol q).
Proof.
  revert b p q.
  induction a as [|c|z|f|s|l IH|items IH] using doc_induction;
    intros b p q; destruct b as [|c'|z'|f'|s'|l'|items'];
    try (by apply cmp_leaf_flag).
  - rewrite !cmp_list_unfold. destruct (negb _); [done|].
    by apply cmp_items_flag.
  - rewrite !cmp_dict_unfold. case_bool_decide; [done|].
    by apply cmp_keys_flag.
Qed.

(** ** More facts of binary64 arithmetic *)

Lemma abs_binary_round (s s' : bool) (m : positive) (e : Z) :
  SFabs (binary_round prec emax s m e) = SFabs (binary_round prec emax s' m e).
Proof.
  unfold binary_round, binary_round_aux.
  destruct (shl_align _ _ _) as [mz ez].
  destruct (shr_fexp _ _ _ _ _) as [mrs' e'].
  destruct (shr_fexp _ _ _ _ _) as [mrs'' e''].
  destruct (shr_m mrs'') as [|p|p]; try reflexivity.
  destruct (e'' <=? _); reflexivity.
Qed.

Lemma abs_binary_normalize_opp (m e : Z) :
  SFabs (binary_normalize prec emax (- m) e false)
  = SFabs (binary_normalize prec emax m e false).
Proof.
  destruct m as [|p|p]; simpl; try reflexivity; apply abs_binary_round.
Qed.

(** [abs(x - y) == abs(y - x)], bit for bit. *)
Lemma float_abs_sub_comm (x y : float) :
  float_abs (float_sub x y) = float_abs (float_sub y x).
Proof.
  unfold float_abs, float_sub.
  destruct x as [[]|[]| |sx mx ex], y as [[]|[]| |sy my ey];
    try reflexivity.
  unfold SFsub. rewrite (Z.min_comm ey ex).
  rewrite <- abs_binary_normalize_opp. f_equal. f_equal. lia.
Qed.

Lemma float_le_trans (x y z : float) :
  float_le x y = true -> float_le y z = true -> float_le x z = true.
Proof.
  unfold float_le, SFleb, SFcompare.
  destruct x as [[]|[]| |[] mx ex], y as [[]|[]| |[] my ey],
           z as [[]|[]| |[] mz ez]; try (intros; reflexivity);
    try (intros; discriminate).
  all: change (Pos.compare_cont Eq ?a ?b) with (Pos.compare a b).
  all: destruct (Z.compare_spec ex ey), (Z.compare_spec ey ez),
         (Z.compare_spec ex ez); subst; try lia;
       try (intros; reflexivity); try (intros; discriminate).
  all: destruct (Pos.compare_spec mx my), (Pos.compare_spec my mz),
         (Pos.compare_spec mx mz); subst; try lia;
       try (intros; reflexivity); try (intros; discriminate).
Qed.

(** Nothing of the form [abs(x)] is below a tolerance that is negative or
    a NaN. *)
Lemma float_le_abs_neg (x tol : float) :
  float_le float_zero tol = false -> float_le (float_abs x) tol = false.
Proof.
  unfold float_le, SFleb, float_abs, float_zero.
  destruct x as [[]|[]| |[] mx ex], tol as [[]|[]| |[] mt et];
    try reflexivity; try discriminate.
Qed.

(** ** The comparator decides agreement within the tolerance *)

Lemma getitem_Some_key {V : Type} (items : list (pystr * V)) k v :
  getitem items k = Some v -> k ∈ keys items.
Proof.
  intros H. apply getitem_Some_elem_of in H.
  unfold keys. apply list_elem_of_fmap. by exists (k, v).
Qed.

Lemma cmp_leaf_close (a b : doc) tol path :
  both_dicts a b = false -> both_lists a b = false ->
  _cmp a b tol path = Return (true, Empty) -> close tol a b.
Proof.
  intros Hd Hl. destruct (is_number a && is_number b) eqn:Hnum.
  - apply andb_prop in Hnum as [Ha Hb]. rewrite cmp_number_unfold by done.
    destruct (to_float a) as [af|] eqn:Haf; [|done].
    destruct (to_float b) as [bf|] eqn:Hbf; [|done]. simpl.
    destruct (float_le _ tol) eqn:Hle; [|done].
    intros _. by apply (close_numbers tol a b af bf).
  - rewrite cmp_other_unfold by done.
    destruct (value_eq a b) eqn:Heq; [|done]. intros _.
    destruct a, b; try done.
    + constructor.
    + simpl in Heq. apply bool_decide_eq_true_1 in Heq as ->. constructor.
Qed.

Lemma cmp_items_close tol path (xs ys : list doc) i :
  Forall (fun x => forall b path,
            _cmp x b tol path = Return (true, Empty) -> close tol x b) xs ->
  length xs = length ys ->
  cmp_items _cmp tol path i xs ys = Return (true, Empty) ->
  Forall2 (close tol) xs ys.
Proof.
  intros Hxs. revert i ys.
  induction Hxs as [|x xs Hx _ IH]; intros i [|y ys] Hlen; try done.
  simpl.
  destruct (_cmp x y tol (path_index path i)) as [[[] m]|e] eqn:Hxy;
    simpl; try done.
  pose proof (cmp_shape _ _ _ _ _ _ Hxy) as ->. intros Hrest.
  constructor; [by eapply Hx|]. eapply IH; [by injection Hlen|done].
Qed.

Lemma cmp_keys_close tol path (da db : list (pystr * doc)) ks :
  Forall (fun kv => forall b path,
            _cmp (snd kv) b tol path = Return (true, Empty) ->
            close tol (snd kv) b) da ->
  cmp_keys ks (prod_map id _cmp <$> da) db tol path = Return (true, Empty) ->
  forall k, k ∈ ks ->
    exists x y, getitem da k = Some x /\ getitem db k = Some y /\
                close tol x y.
Proof.
  intros Hda. induction ks as [|k ks IH]; simpl.
  - intros _ k Hk. by apply elem_of_nil in Hk.
  - rewrite getitem_fmap.
    destruct (getitem da k) as [x|] eqn:Hx; [|done].
    destruct (getitem db k) as [y|] eqn:Hy; [|done]. simpl.
    destruct (_cmp x y tol (path_key path k)) as [[[] m]|e] eqn:Hxy;
      simpl; try done.
    pose proof (cmp_shape _ _ _ _ _ _ Hxy) as ->. intros Hrest k' Hk'.
    apply elem_of_cons in Hk' as [->|Hk']; [|by apply IH].
    exists x, y. repeat split; try done.
    rewrite Forall_forall in Hda.
    by apply (Hda (k, x) (getitem_Some_elem_of _ _ _ Hx) y (path_key path k)).
Qed.

Lemma cmp_match_close (a b : doc) tol path :
  _cmp a b tol path = Return (true, Empty) -> close tol a b.
Proof.
  revert b path.
  induction a as [|c|z|f|s|l IH|items IH] using doc_induction;
    intros b path; destruct b as [|c'|z'|f'|s'|l'|items'];
    try (by apply cmp_leaf_close).
  - rewrite cmp_list_unfold.
    destruct (Nat.eqb_spec (length l) (length l')) as [Hlen|]; [|done].
    simpl. intros H. constructor. by eapply cmp_items_close.
  - rewrite cmp_dict_unfold. case_bool_decide as Hkeys; [done|].
    intros H. constructor; [done|].
    intros k x y Hx Hy.
    destruct (cmp_keys_close tol path items items' _ IH H k)
      as (x' & y' & Hx' & Hy' & Hc).
    { apply elem_of_sorted, elem_of_key_set. by eapply getitem_Some_key. }
    congruence.
Qed.

Lemma close_cmp_match (a b : doc) tol path :
  close tol a b -> _cmp a b tol path = Return (true, Empty).
Proof.
  revert b path.
  induction a as [|c|z|f|s|l IH|items IH] using doc_induction;
    intros b path Hc; inversion Hc as
      [a' b' af bf Ha Hb Haf Hbf Hle| |s'|la lb Hall|da db Hkeys Hall];
    subst; try done;
    try (by rewrite cmp_number_unfold, Haf, Hbf by done; simpl; rewrite Hle).
  - rewrite cmp_other_unfold by done. simpl. by rewrite bool_decide_eq_true_2.
  - rewrite cmp_list_unfold, (Forall2_length _ _ _ Hall), Nat.eqb_refl.
    simpl negb. cbv iota. apply cmp_items_all_pass. intros j x y Hx Hy.
    rewrite Forall_lookup in IH. apply (IH j x Hx).
    by eapply Forall2_lookup_lr.
  - rewrite cmp_dict_unfold, bool_decide_eq_false_2 by (by intros []).
    apply cmp_keys_all_pass. intros k Hk. apply elem_of_sorted in Hk.
    assert (k ∈ key_set db) as Hkb by congruence.
    apply elem_of_key_set, getitem_is_Some in Hk as [x Hx].
    apply elem_of_key_set, getitem_is_Some in Hkb as [y Hy].
    exists x, y. repeat split; try done.
    rewrite Forall_forall in IH.
    apply (IH (k, x) (getitem_Some_elem_of _ _ _ Hx)). by eapply Hall.
Qed.

(** X3.  The comparator declares two documents equal exactly when they
    agree within the tolerance: same structure, same strings, same key
    sets, and numbers whose float64 values differ by at most [tol]. *)
Theorem cmp_decides_close (a b : doc) (tol : float) (path : pystr) :
  _cmp a b tol path = Return (true, Empty) <-> close tol a b.
Proof. split; [apply cmp_match_close|apply close_cmp_match]. Qed.

Lemma cmp_decides_close_witness :
  _cmp sample_ref sample_near f_0_02 (u "$") = Return (true, Empty)
  /\ close f_0_02 sample_ref sample_near.
Proof.
  assert (_cmp sample_ref sample_near f_0_02 (u "$") = Return (true, Empty))
    as H by (by vm_compute).
  split; [exact H|].
  exact (proj1 (cmp_decides_close sample_ref sample_near f_0_02 (u "$")) H).
Defined.

(** ** Symmetry and monotonicity *)

Lemma close_sym (tol : float) (a b : doc) : close tol a b -> close tol b a.
Proof.
  revert b.
  induction a as [|c|z|f|s|l IH|items IH] using doc_induction;
    intros b Hc; inversion Hc as
      [a' b' af bf Ha Hb Haf Hbf Hle| |s'|la lb Hall|da db Hkeys Hall];
    subst; try done;
    try (by apply (close_numbers tol _ _ bf af);
            [..|rewrite float_abs_sub_comm]).
  - constructor. clear Hc. induction Hall as [|x y la lb Hxy _ IHall].
    + constructor.
    + apply Forall_cons in IH as [Hx IHl]. constructor; auto.
  - constructor; [done|]. intros k y x Hy Hx.
    rewrite Forall_forall in IH.
    apply (IH (k, x) (getitem_Some_elem_of _ _ _ Hx)). by eapply Hall.
Qed.

Lemma close_mono (tol tol' : float) (a b : doc) :
  float_le tol tol' = true -> close tol a b -> close tol' a b.
Proof.
  intros Htol. revert b.
  induction a as [|c|z|f|s|l IH|items IH] using doc_induction;
    intros b Hc; inversion Hc as
      [a' b' af bf Ha Hb Haf Hbf Hle| |s'|la lb Hall|da db Hkeys Hall];
    subst; try done;
    try (by apply (close_numbers tol' _ _ af bf);
            [..|apply (float_le_trans _ tol)]).
  - constructor.
  - constructor.
  - constructor. clear Hc. induction Hall as [|x y la lb Hxy _ IHall].
    + constructor.
    + apply Forall_cons in IH as [Hx IHl]. constructor; auto.
  - constructor; [done|]. intros k x y Hx Hy.
    rewrite Forall_forall in IH.
    apply (IH (k, x) (getitem_Some_elem_of _ _ _ Hx)). by eapply Hall.
Qed.

(** X4.  Which document is the reference does not change the outcome: the
    two match in one direction exactly when they match in the other. *)
Theorem cmp_match_symmetric (a b : doc) (tol : float) (p q : pystr) :
  _cmp a b tol p = Return (true, Empty) <->
  _cmp b a tol q = Return (true, Empty).
Proof.
  split; intros H; apply close_cmp_match, close_sym; by eapply cmp_match_close.
Qed.

Lemma cmp_match_symmetric_witness :
  _cmp sample_ref sample_near f_0_02 (u "$") = Return (true, Empty)
  /\ _cmp sample_near sample_ref f_0_02 (u "$") = Return (true, Empty).
Proof.
  assert (_cmp sample_ref sample_near f_0_02 (u "$") = Return (true, Empty))
    as H by (by vm_compute).
  split; [exact H|].
  exact (proj1 (cmp_match_symmetric sample_ref sample_near f_0_02
                  (u "$") (u "$")) H).
Defined.

(** X5.  A larger tolerance never turns a match into a mismatch. *)
Theorem cmp_match_monotone (a b : doc) (tol tol' : float) (path : pystr) :
  float_le tol tol' = true ->
  _cmp a b tol path = Return (true, Empty) ->
  _cmp a b tol' path = Return (true, Empty).
Proof.
  intros Htol H. eapply close_cmp_match, close_mono; [done|].
  by eapply cmp_match_close.
Qed.

Lemma cmp_match_monotone_witness :
  (float_le f_0_02 f_one = true /\
   _cmp sample_ref sample_near f_0_02 (u "$") = Return (true, Empty)) /\
  _cmp sample_ref sample_near f_one (u "$") = Return (true, Empty).
Proof.
  split; [split; by vm_compute|].
  apply (cmp_match_monotone sample_ref sample_near f_0_02 f_one (u "$"));
    by vm_compute.
Defined.

(** X6.  A tolerance that is negative, or a NaN, matches no numbers at all:
    every pair of numeric leaves that [float()] converts is reported as a
    number mismatch, a number against itself included. *)
Theorem cmp_numbers_never_match (a b : doc) (af bf tol : float)
    (path : pystr) :
  float_le float_zero tol = false ->
  is_number a = true -> is_number b = true ->
  to_float a = Return af -> to_float b = Return bf ->
  _cmp a b tol path = Return (false, NumberMismatch path a b tol).
Proof.
  intros Htol Ha Hb Haf Hbf.
  rewrite cmp_number_unfold, Haf, Hbf by done. simpl.
  by rewrite float_le_abs_neg.
Qed.

Lemma cmp_numbers_never_match_witness :
  (float_le float_zero float_nan = false /\
   is_number (DInt 5) = true /\ to_float (DInt 5) = Return
     (S754_finite false 5629499534213120 (-50))) /\
  _cmp (DInt 5) (DInt 5) float_nan (u "$")
  = Return (false, NumberMismatch (u "$") (DInt 5) (DInt 5) float_nan).
Proof.
  split; [repeat split; by vm_compute|].
  apply (cmp_numbers_never_match (DInt 5) (DInt 5)
           (S754_finite false 5629499534213120 (-50))
           (S754_finite false 5629499534213120 (-50)) float_nan (u "$"));
    by vm_compute.
Defined.

(** * Further properties of the script *)

(** ** [_require_ok] (lines 49-63) *)

Lemma ends_with_newline_app (s t : pystr) :
  t <> [] -> ends_with_newline (s ++ t) = ends_with_newline t.
Proof.
  intros Ht. unfold ends_with_newline. rewrite last_app.
  destruct (last t) eqn:Hl; [done|].
  by apply last_None in Hl.
Qed.

Lemma stream_report_joined (title s : pystr) :
  s <> [] ->
  written_stderr (stream_report title s)
  = Str title :: Str s :: (if ends_with_newline s then [] else [Str nl])
  /\ ends_with_newline (joined (written_stderr (stream_report title s)))
     = true.
Proof.
  intros Hs. unfold stream_report. rewrite bool_decide_eq_false_2 by done.
  destruct (ends_with_newline s) eqn:Hnl; simpl; (split; [done|]).
  - rewrite app_nil_r. by rewrite ends_with_newline_app.
  - rewrite app_assoc. by rewrite ends_with_newline_app.
Qed.

(** X7.  [_require_ok] lets a process with return code 0 pass without a
    trace.  For any other code it raises [SystemExit] with that code after
    writing, on stderr only, the failure line and then each captured
    stream that is not empty, as it is, under its title and closed by a
    newline when it lacks one; an empty stream is not mentioned. *)
Theorem require_ok_contract (p : CompletedProcess) (what : pystr)
    (h : list event) :
  (returncode p = 0 -> _require_ok p what h = (h, Return ()))
  /\ (returncode p <> 0 ->
      exists tr,
        _require_ok p what h
        = (h ++ tr, Raise (SystemExit (ExitCode (returncode p))))
        /\ tr = Stderr (Failed what (returncode p)) ::
                stream_report (u "stdout:" ++ nl) (stdout p) ++
                stream_report (u "stderr:" ++ nl) (stderr p)
        /\ Forall (fun ev => exists t, ev = Stderr t) tr)
  /\ (forall title s,
        (s = [] -> stream_report title s = [])
        /\ (s <> [] ->
            written_stderr (stream_report title s)
            = Str title :: Str s ::
                (if ends_with_newline s then [] else [Str nl])
            /\ ends_with_newline
                 (joined (written_stderr (stream_report title s))) = true)).
Proof.
  split; [|split].
  - intros Hrc. by rewrite require_ok_eq, Hrc.
  - intros Hrc. apply Z.eqb_neq in Hrc. eexists.
    rewrite require_ok_eq, Hrc. split; [reflexivity|]. split; [done|].
    apply (failure_report_Forall (fun ev => exists t, ev = Stderr t)). eauto.
  - intros title s. split; [|apply stream_report_joined].
    intros ->. reflexivity.
Qed.

Lemma require_ok_contract_witness :
  _require_ok (quiet (u "{}")) (u "cargo run") [] = ([], Return ())
  /\ _require_ok failed_build (u "moon build") []
     = ([Stderr (Failed (u "moon build") 2);
         Stderr (Str (u "stderr:" ++ nl));
         Stderr (Str (u "error: build failed"));
         Stderr (Str nl)],
        Raise (SystemExit (ExitCode 2))).
Proof.
  split.
  - apply (require_ok_contract (quiet (u "{}")) (u "cargo run") []).
    reflexivity.
  - destruct (require_ok_contract failed_build (u "moon build") [])
      as (_ & Hfail & _).
    destruct Hfail as (tr & Heq & -> & _); [discriminate|]. exact Heq.
Defined.

(** ** The font: [_pick_default_font], [_prepare_font] and lines 192-198 *)

Lemma drop_prefix_app (pre s : pystr) : drop_prefix pre (pre ++ s) = Some s.
Proof.
  induction pre as [|c pre IH]; [by destruct s|].
  simpl. by rewrite N.eqb_refl.
Qed.

Lemma relative_to_staged (w : World) (name : pystr) :
  relative_to (path_join (TMP_FONTS_DIR w) name) (ROOT w)
  = Return (u ".tmp/fonts/" ++ name).
Proof.
  unfold relative_to, TMP_FONTS_DIR, TMP_DIR, path_join.
  replace (((ROOT w ++ u "/" ++ u ".tmp") ++ u "/" ++ u "fonts") ++
           u "/" ++ name)
    with ((ROOT w ++ u "/") ++ u ".tmp/fonts/" ++ name)
    by (rewrite <- !app_assoc; reflexivity).
  by rewrite drop_prefix_app.
Qed.

Lemma pick_default_font_spec (w : World) (h : list event) :
  exists r, _pick_default_font w h = (h, r) /\
    match r with
    | Return p =>
        exists before after,
          default_fonts = before ++ p :: after /\
          path_exists w h p = true /\
          Forall (fun q => path_exists w h q = false) before
    | Raise e =>
        e = SystemExit (ExitText NoDefaultFont) /\
        Forall (fun q => path_exists w h q = false) default_fonts
    end.
Proof.
  unfold _pick_default_font, default_fonts. io_run.
  destruct (path_exists w h (u "/System/Library/Fonts/Supplemental/Arial.ttf"))
    eqn:H1.
  { eexists. split; [reflexivity|]. by exists [], (tail default_fonts). }
  destruct (path_exists w h
              (u "/System/Library/Fonts/Supplemental/Times New Roman.ttf"))
    eqn:H2.
  { eexists. split; [reflexivity|].
    exists [u "/System/Library/Fonts/Supplemental/Arial.ttf"],
           [u "/System/Library/Fonts/Geneva.ttf"].
    repeat split; try done. by constructor. }
  destruct (path_exists w h (u "/System/Library/Fonts/Geneva.ttf")) eqn:H3.
  { eexists. split; [reflexivity|].
    exists [u "/System/Library/Fonts/Supplemental/Arial.ttf";
            u "/System/Library/Fonts/Supplemental/Times New Roman.ttf"], [].
    repeat split; try done. by repeat constructor. }
  eexists. split; [reflexivity|]. split; [done|]. by repeat constructor.
Qed.

(** X8.  [_pick_default_font] returns the first of its three candidates
    that exists, in the order of the source, and leaves no trace; it
    raises [SystemExit] with its message exactly when none exists. *)
Theorem pick_default_font_first (w : World) (h : list event) :
  exists r, _pick_default_font w h = (h, r) /\
    match r with
    | Return p =>
        exists before after,
          default_fonts = before ++ p :: after /\
          path_exists w h p = true /\
          Forall (fun q => path_exists w h q = false) before
    | Raise e =>
        e = SystemExit (ExitText NoDefaultFont) /\
        Forall (fun q => path_exists w h q = false) default_fonts
    end.
Proof. apply pick_default_font_spec. Qed.

Lemma prepare_font_eq (w : World) (font : pystr) h :
  _prepare_font w font h =
  let dst := path_join (TMP_FONTS_DIR w) (path_name w font) in
  let h1 := h ++ [Mkdir (TMP_FONTS_DIR w)] in
  (h1 ++ (if path_exists w h1 dst then []
          else Copy2 font dst ::
               (if copy2_denied w h1 then [Copyfile font dst] else [])),
   Return dst).
Proof.
  unfold _prepare_font. io_run. cbv zeta.
  destruct (path_exists w _ _); [by rewrite app_nil_r|]. io_run.
  destruct (copy2_denied w _); io_run; by rewrite <- !app_assoc.
Qed.

Lemma prologue_eq (w : World) (args : Args) (f : pystr) h :
  (font args = Some f \/
   font args = None /\ _pick_default_font w h = (h, Return f)) ->
  prologue w args h =
  if path_exists w h f then
    let dst := path_join (TMP_FONTS_DIR w) (path_name w f) in
    let h1 := h ++ [Mkdir (TMP_FONTS_DIR w)] in
    (h1 ++ (if path_exists w h1 dst then []
            else Copy2 f dst ::
                 (if copy2_denied w h1 then [Copyfile f dst] else [])),
     Return (f, staged w f, texts_of args))
  else (h, Raise (SystemExit (ExitText (FontNotFound f)))).
Proof.
  intros Hfont. unfold prologue.
  assert (match font args with
          | Some f0 => mret f0
          | None => _pick_default_font w
          end h = (h, Return f)) as Hpick.
  { destruct Hfont as [->|[-> Hp]]; done. }
  rewrite io_bind_unfold, Hpick. io_run.
  destruct (path_exists w h f); [|done].
  change (negb true) with false. cbv beta iota.
  rewrite prepare_font_eq. cbv beta iota zeta.
  by rewrite relative_to_staged.
Qed.

Lemma prologue_cases (w : World) (args : Args) h :
  (exists f,
     (font args = Some f \/
      font args = None /\ _pick_default_font w h = (h, Return f)) /\
     (font args = None -> f ∈ default_fonts))
  \/ (font args = None /\
      Forall (fun q => path_exists w h q = false) default_fonts /\
      prologue w args h = (h, Raise (SystemExit (ExitText NoDefaultFont)))).
Proof.
  destruct (font args) as [f|] eqn:Hfont.
  { left. exists f. split; [by left|done]. }
  destruct (pick_default_font_spec w h) as ([p|e] & Hpick & Hr).
  - left. exists p. split; [by right|]. intros _.
    destruct Hr as (before & after & -> & _).
    apply elem_of_app. right. left.
  - right. destruct Hr as [-> Hnone]. repeat split; try done.
    unfold prologue. by rewrite io_bind_unfold, Hfont, Hpick.
Qed.

(** X9.  Without a font [main] stops before it stages, builds or runs
    anything: a [--font] that does not exist, or no [--font] and no
    default font on the machine, ends the run with the message of
    [SystemExit], exit status 1, and the trace as it was. *)
Theorem main_font_missing (w : World) (args : Args) (h : list event) :
  (forall f, font args = Some f -> path_exists w h f = false ->
     main w args h = (h, Raise (SystemExit (ExitText (FontNotFound f)))))
  /\ (font args = None ->
      Forall (fun q => path_exists w h q = false) default_fonts ->
      main w args h = (h, Raise (SystemExit (ExitText NoDefaultFont))))
  /\ exit_status (@Raise () (SystemExit (ExitText NoDefaultFont))) = 1
  /\ (forall f,
        exit_status (@Raise () (SystemExit (ExitText (FontNotFound f)))) = 1).
Proof.
  split; [|split; [|done]].
  - intros f Hfont Hex. unfold main.
    rewrite io_bind_unfold, (prologue_eq w args f h) by (by left).
    by rewrite Hex.
  - intros Hfont Hnone. unfold main.
    destruct (prologue_cases w args h)
      as [(f & [Hf|[_ Hpick]] & Hin)|(_ & _ & Hpro)].
    + congruence.
    + destruct (pick_default_font_spec w h) as (r & Hpick' & Hr).
      rewrite Hpick in Hpick'. injection Hpick' as <-.
      destruct Hr as (before & after & Hlist & Hex & _).
      rewrite Forall_forall in Hnone.
      rewrite Hnone in Hex; [done|]. rewrite Hlist.
      apply elem_of_app. right. left.
    + by rewrite io_bind_unfold, Hpro.
Qed.

Lemma main_font_missing_witness :
  main {| ROOT := u "/repo";
          run_process := fun _ _ => quiet [];
          path_exists := fun _ _ => false;
          copy2_denied := fun _ => false;
          path_name := fun _ => u "font.ttf";
          json_loads := toy_loads |} (toy_args toy_texts) []
  = ([], Raise (SystemExit (ExitText (FontNotFound (u "/fonts/font.ttf"))))).
Proof.
  apply main_font_missing; reflexivity.
Defined.

(** X10.  When the lines before the build succeed, the font exists, it is
    the one of [--font] when given and else one of the defaults, and the
    path handed on is [.tmp/fonts/<name>], relative to the root, whatever
    the font's own directory.  Staging makes the directory, and copies
    only when the staged file is not there yet: first with [copy2], and
    with [copyfile] after a [PermissionError].  The texts are those of
    [--text], or the three defaults. *)
Theorem prologue_stages (w : World) (args : Args) (h h0 : list event)
    (f font_rel : pystr) (texts : list pystr) :
  prologue w args h = (h0, Return (f, font_rel, texts)) ->
  font_rel = staged w f
  /\ texts = texts_of args
  /\ path_exists w h f = true
  /\ (forall f', font args = Some f' -> f = f')
  /\ (font args = None -> f ∈ default_fonts)
  /\ h0 = (h ++ [Mkdir (TMP_FONTS_DIR w)]) ++
          (if path_exists w (h ++ [Mkdir (TMP_FONTS_DIR w)])
                (path_join (TMP_FONTS_DIR w) (path_name w f))
           then []
           else Copy2 f (path_join (TMP_FONTS_DIR w) (path_name w f)) ::
                (if copy2_denied w (h ++ [Mkdir (TMP_FONTS_DIR w)])
                 then [Copyfile f (path_join (TMP_FONTS_DIR w)
                                     (path_name w f))]
                 else [])).
Proof.
  intros Hpro.
  destruct (prologue_cases w args h) as [(f0 & Hf0 & Hin)|(_ & _ & Hraise)];
    [|congruence].
  rewrite (prologue_eq w args f0 h Hf0) in Hpro.
  destruct (path_exists w h f0) eqn:Hex; [|done].
  cbv zeta in Hpro. injection Hpro as <- <- <- <-.
  repeat split; try done.
  intros f' Hf'. destruct Hf0 as [Hf0|[Hf0 _]]; congruence.
Qed.

Lemma prologue_stages_witness :
  prologue (toy_world (quiet [])) (toy_args toy_texts) []
  = (toy_h0, Return (u "/fonts/font.ttf", toy_font_rel, toy_texts))
  /\ toy_font_rel = staged (toy_world (quiet [])) (u "/fonts/font.ttf").
Proof.
  assert (prologue (toy_world (quiet [])) (toy_args toy_texts) []
          = (toy_h0, Return (u "/fonts/font.ttf", toy_font_rel, toy_texts)))
    as H by (by vm_compute).
  split; [exact H|].
  by destruct (prologue_stages _ _ _ _ _ _ _ H) as (Hrel & _).
Defined.

(** ** A case that fails before the comparison (lines 205-214) *)

Lemma spawned_app tr1 tr2 : spawned (tr1 ++ tr2) = spawned tr1 ++ spawned tr2.
Proof. apply omap_app. Qed.

Lemma spawned_stream_report title s : spawned (stream_report title s) = [].
Proof.
  unfold stream_report. case_bool_decide; [done|].
  by destruct (ends_with_newline s).
Qed.

Lemma spawned_failure_report p what : spawned (failure_report p what) = [].
Proof.
  unfold failure_report. by rewrite !spawned_app, !spawned_stream_report.
Qed.

(** X11.  The reference producer runs first and a failure ends the case at
    once.  Without the reference checkout nothing runs.  When the
    reference exits with a code other than 0 the case raises [SystemExit]
    with that code and the candidate is never started; when the candidate
    fails, its code is the one raised. *)
Theorem producer_failure (w : World) (args : Args)
    (font font_rel t : pystr) (h : list event) :
  let manifest := path_join (SWASH_REFERENCE_DIR w) (u "Cargo.toml") in
  let rust_cmd := CargoRun font_rel t (size args) in
  let moon_cmd := WasmtimeRun font_rel t (size args) in
  let rust := run_process w h rust_cmd in
  let moon := run_process w (h ++ [Spawn rust_cmd]) moon_cmd in
  (path_exists w h manifest = false ->
     case w args font font_rel t h
     = (h, Raise (SystemExit (ExitText ReferenceNotFound))))
  /\ (path_exists w h manifest = true -> returncode rust <> 0 ->
      exists tr,
        case w args font font_rel t h
        = (h ++ tr, Raise (SystemExit (ExitCode (returncode rust))))
        /\ spawned tr = [rust_cmd]
        /\ written_stderr tr
           = written_stderr
               (failure_report rust
                  (u "cargo run (swash-reference dump_json)")))
  /\ (path_exists w h manifest = true -> returncode rust = 0 ->
      returncode moon <> 0 ->
      exists tr,
        case w args font font_rel t h
        = (h ++ tr, Raise (SystemExit (ExitCode (returncode moon))))
        /\ spawned tr = [rust_cmd; moon_cmd]
        /\ written_stderr tr
           = written_stderr
               (failure_report moon (u "wasmtime run (moon_swash_dump)"))).
Proof.
  cbv zeta. split; [|split].
  - intros Hex. unfold case. rewrite io_bind_unfold, run_rust_dump_eq.
    cbv zeta. by rewrite Hex.
  - intros Hex Hrc. apply Z.eqb_neq in Hrc.
    exists (Spawn (CargoRun font_rel t (size args)) ::
            failure_report (run_process w h (CargoRun font_rel t (size args)))
              (u "cargo run (swash-reference dump_json)")).
    split; [|split].
    + unfold case. rewrite io_bind_unfold, run_rust_dump_eq.
      cbv zeta. by rewrite Hex, Hrc.
    + change (spawned (?x :: ?l)) with (CargoRun font_rel t (size args)
                                        :: spawned l).
      by rewrite spawned_failure_report.
    + reflexivity.
  - intros Hex Hrc1 Hrc2. apply Z.eqb_neq in Hrc2.
    exists ([Spawn (CargoRun font_rel t (size args))] ++
            Spawn (WasmtimeRun font_rel t (size args)) ::
            failure_report
              (run_process w (h ++ [Spawn (CargoRun font_rel t (size args))])
                 (WasmtimeRun font_rel t (size args)))
              (u "wasmtime run (moon_swash_dump)")).
    split; [|split].
    + unfold case. rewrite io_bind_unfold, run_rust_dump_eq.
      cbv zeta. rewrite Hex, Hrc1.
      change (0 =? 0) with true. change (negb true) with false.
      cbv beta iota.
      rewrite io_bind_unfold, run_moon_dump_eq. cbv zeta. rewrite Hrc2.
      by rewrite <- app_assoc.
    + change (spawned ([?x] ++ ?y :: ?l))
        with (CargoRun font_rel t (size args) ::
              WasmtimeRun font_rel t (size args) :: spawned l).
      by rewrite spawned_failure_report.
    + reflexivity.
Qed.

(** A reference producer that fails with status 101. *)
Lemma producer_failure_witness :
  case {| ROOT := u "/repo";
          run_process := fun _ _ =>
            {| returncode := 101; stdout := []; stderr := u "panic" |};
          path_exists := fun _ _ => true;
          copy2_denied := fun _ => false;
          path_name := fun _ => u "font.ttf";
          json_loads := toy_loads |}
    (toy_args toy_texts) (u "/fonts/font.ttf") toy_font_rel (u "a") []
  = ([Spawn (CargoRun toy_font_rel (u "a") f_14);
      Stderr (Failed (u "cargo run (swash-reference dump_json)") 101);
      Stderr (Str (u "stderr:" ++ nl)); Stderr (Str (u "panic"));
      Stderr (Str nl)],
     Raise (SystemExit (ExitCode 101))).
Proof.
  destruct (producer_failure
              {| ROOT := u "/repo";
                 run_process := fun _ _ =>
                   {| returncode := 101; stdout := []; stderr := u "panic" |};
                 path_exists := fun _ _ => true;
                 copy2_denied := fun _ => false;
                 path_name := fun _ => u "font.ttf";
                 json_loads := toy_loads |}
              (toy_args toy_texts) (u "/fonts/font.ttf") toy_font_rel
              (u "a") []) as (_ & Hrust & _).
  destruct Hrust as (tr & Hcase & _); [reflexivity|discriminate|].
  rewrite Hcase. by vm_compute.
Defined.

(** X12.  An output that does not parse ends the case after both
    producers have run, with the producer's name, the parser's message and
    the raw text in the argument of [SystemExit]; when both outputs are
    unparsable, the failure reported is the reference's. *)
Theorem parse_failure (w : World) (args : Args) (font font_rel t : pystr)
    (h : list event) (rust_out moon_out : pystr) :
  producers_ok w args font_rel t h rust_out moon_out ->
  (forall err, json_loads w rust_out = inl err ->
     case w args font font_rel t h
     = (h ++ (Spawn <$> runs_of args font_rel t),
        Raise (SystemExit (ExitText (ParseFailed Rust err rust_out)))))
  /\ (forall r err,
        json_loads w rust_out = inr r -> json_loads w moon_out = inl err ->
        case w args font font_rel t h
        = (h ++ (Spawn <$> runs_of args font_rel t),
           Raise (SystemExit (ExitText (ParseFailed Moon err moon_out))))).
Proof.
  intros (Hex & Hrc1 & Hrc2 & -> & ->).
  assert (forall k : pystr -> pystr -> io (),
            (rust_out ← _run_rust_dump w font_rel t (size args);
             moon_out ← _run_moon_dump w font_rel t (size args);
             k rust_out moon_out) h
            = k (strip (stdout (run_process w h
                                  (CargoRun font_rel t (size args)))))
                (strip (stdout (run_process w
                                  (h ++ [Spawn (CargoRun font_rel t
                                                  (size args))])
                                  (WasmtimeRun font_rel t (size args)))))
                (h ++ (Spawn <$> runs_of args font_rel t))) as Hruns.
  { intros k. rewrite io_bind_unfold, run_rust_dump_eq.
    cbv zeta. rewrite Hex, Hrc1.
    change (0 =? 0) with true. change (negb true) with false.
    cbv beta iota.
    rewrite io_bind_unfold, run_moon_dump_eq. cbv zeta. rewrite Hrc2.
    change (0 =? 0) with true. cbv beta iota.
    by rewrite <- app_assoc. }
  split.
  - intros err Herr. unfold case. rewrite Hruns.
    unfold parse. rewrite Herr. reflexivity.
  - intros r err Hr Herr. unfold case. rewrite Hruns.
    unfold parse. rewrite Hr, Herr. reflexivity.
Qed.

Lemma parse_failure_witness :
  case {| ROOT := u "/repo";
          run_process := fun _ _ => quiet (u "oops");
          path_exists := fun _ _ => true;
          copy2_denied := fun _ => false;
          path_name := fun _ => u "font.ttf";
          json_loads := toy_loads |}
    (toy_args toy_texts) (u "/fonts/font.ttf") toy_font_rel (u "a") []
  = ([Spawn (CargoRun toy_font_rel (u "a") f_14);
      Spawn (WasmtimeRun toy_font_rel (u "a") f_14)],
     Raise (SystemExit
              (ExitText (ParseFailed Rust (u "Expecting value") (u "oops"))))).
Proof.
  apply (parse_failure _ (toy_args toy_texts) (u "/fonts/font.ttf")
           toy_font_rel (u "a") [] (u "oops") (u "oops")).
  - repeat split.
  - reflexivity.
Defined.

(** ** The [--dump] flag (lines 220-224) *)

(** X13.  The [--dump] flag changes nothing but stderr: with it a case ends
    the same way.  When the case is a mismatch reported by the comparator,
    its trace is the trace without the flag followed by exactly four
    writes on stderr: the title of the reference, the output of the
    reference producer as [_run_rust_dump] returned it and a newline, the
    title of the candidate, and the output of the candidate producer and a
    newline.  In every other case the flag changes neither the trace nor
    the result. *)
Theorem dump_only_adds_stderr (w : World) (args : Args)
    (font font_rel t : pystr) (h : list event) :
  let silent := case w (with_dump false args) font font_rel t h in
  let loud := case w (with_dump true args) font font_rel t h in
  let rust := run_process w h (CargoRun font_rel t (size args)) in
  let moon :=
    run_process w (h ++ [Spawn (CargoRun font_rel t (size args))])
      (WasmtimeRun font_rel t (size args)) in
  loud.2 = silent.2
  /\ ((exists msg, case_mismatches w args font_rel t h msg) ->
      loud.1 = silent.1 ++
               [Stderr (Str (nl ++ u "ref:" ++ nl));
                Stderr (Str (strip (stdout rust) ++ nl));
                Stderr (Str (nl ++ u "moon:" ++ nl));
                Stderr (Str (strip (stdout moon) ++ nl))])
  /\ ((forall msg, ~ case_mismatches w args font_rel t h msg) ->
      loud = silent).
Proof.
  cbv zeta. split; [|split].
  - unfold case, with_dump. cbn [size tol dump].
    case_split; simpl negb; cbv iota; case_split; reflexivity.
  - intros (msg & rust_out & moon_out & r & m & Hok & Hr & Hm & Hcmp).
    rewrite (case_mismatches_raises w (with_dump true args) font font_rel t h
               msg rust_out moon_out r m Hok Hr Hm Hcmp).
    rewrite (case_mismatches_raises w (with_dump false args) font font_rel t
               h msg rust_out moon_out r m Hok Hr Hm Hcmp).
    destruct Hok as (_ & _ & _ & -> & ->).
    unfold dump_report. cbn [dump with_dump fst snd size].
    by rewrite app_nil_r, <- app_assoc.
  - intros Hno. unfold case.
    destruct (_run_rust_dump w font_rel t (size (with_dump true args)) h)
      as [h1 [rust_out|e1]] eqn:Hrust; io_run; cbn [size with_dump] in *;
      rewrite Hrust; [|done].
    destruct (_run_moon_dump w font_rel t (size args) h1)
      as [h2 [moon_out|e2]] eqn:Hmoon; [|done].
    unfold parse.
    destruct (json_loads w rust_out) as [err1|r] eqn:Hr; [done|].
    destruct (json_loads w moon_out) as [err2|m] eqn:Hm; [done|].
    io_run. cbv beta iota zeta. cbn [tol with_dump].
    destruct (_cmp r m (tol args) (u "$")) as [[[] msg]|e] eqn:Hcmp;
      [done| |done].
    exfalso. apply (Hno msg). exists rust_out, moon_out, r, m.
    split; [|done].
    rewrite run_rust_dump_eq in Hrust. cbv zeta in Hrust.
    destruct (negb (path_exists w h _)) eqn:Hex; [done|].
    apply negb_false_iff in Hex.
    destruct (returncode (run_process w h _) =? 0) eqn:Hrc1; [|done].
    injection Hrust as <- <-.
    rewrite run_moon_dump_eq in Hmoon. cbv zeta in Hmoon.
    destruct (returncode (run_process w (h ++ _) _) =? 0) eqn:Hrc2; [|done].
    injection Hmoon as <- <-.
    apply Z.eqb_eq in Hrc1, Hrc2. done.
Qed.

Lemma dump_only_adds_stderr_witness :
  (case (toy_world (quiet [])) (with_dump true (toy_args toy_texts))
     (u "/fonts/font.ttf") toy_font_rel (u "b") toy_h1).1
  = (case (toy_world (quiet [])) (with_dump false (toy_args toy_texts))
       (u "/fonts/font.ttf") toy_font_rel (u "b") toy_h1).1 ++
    [Stderr (Str (nl ++ u "ref:" ++ nl)); Stderr (Str (u "1" ++ nl));
     Stderr (Str (nl ++ u "moon:" ++ nl)); Stderr (Str (u "2" ++ nl))].
Proof.
  destruct (dump_only_adds_stderr (toy_world (quiet [])) (toy_args toy_texts)
              (u "/fonts/font.ttf") toy_font_rel (u "b") toy_h1)
    as (_ & Hloud & _).
  apply Hloud.
  exists (NumberMismatch (u "$") (DInt 1) (DInt 2) f_0_02).
  exists (u "1"), (u "2"), (DInt 1), (DInt 2).
  repeat split; vm_compute; reflexivity.
Defined.

(** ** The build (lines 94-103) *)

(** X14.  A build that exits with 0 is not enough: when one of the two
    wasm files is missing afterwards, [main] stops with the message of
    [SystemExit], exit status 1, having started the build and nothing
    else. *)
Theorem build_artifact_missing (w : World) (args : Args)
    (f font_rel : pystr) (texts : list pystr) (h h0 : list event) :
  prologue w args h = (h0, Return (f, font_rel, texts)) ->
  returncode (run_process w h0 MoonBuild) = 0 ->
  (path_exists w (h0 ++ [Spawn MoonBuild]) (MOON_DUMP_WASM w) = false ->
   main w args h
   = (h0 ++ [Spawn MoonBuild],
      Raise (SystemExit (ExitText (WasmNotFound (MOON_DUMP_WASM w))))))
  /\ (path_exists w (h0 ++ [Spawn MoonBuild]) (MOON_DUMP_WASM w) = true ->
      path_exists w (h0 ++ [Spawn MoonBuild]) (SPECTEST_WASM w) = false ->
      main w args h
      = (h0 ++ [Spawn MoonBuild],
         Raise (SystemExit (ExitText (SpectestNotFound (SPECTEST_WASM w))))))
  /\ (forall p,
        exit_status (@Raise () (SystemExit (ExitText (WasmNotFound p)))) = 1
        /\ exit_status
             (@Raise () (SystemExit (ExitText (SpectestNotFound p)))) = 1).
Proof.
  intros Hpro Hrc. split; [|split; [|done]].
  - intros Hwasm. unfold main.
    rewrite io_bind_unfold, Hpro. io_run. rewrite build_moon_dump_eq.
    cbv zeta. by rewrite Hrc, Hwasm.
  - intros Hwasm Hspec. unfold main.
    rewrite io_bind_unfold, Hpro. io_run. rewrite build_moon_dump_eq.
    cbv zeta. by rewrite Hrc, Hwasm, Hspec.
Qed.

Lemma build_artifact_missing_witness :
  main {| ROOT := u "/repo";
          run_process := fun _ _ => quiet [];
          path_exists := fun tr _ => bool_decide (spawned tr = []);
          copy2_denied := fun _ => false;
          path_name := fun _ => u "font.ttf";
          json_loads := toy_loads |} (toy_args toy_texts) []
  = (toy_hb,
     Raise (SystemExit
              (ExitText
                 (WasmNotFound
                    (u "/repo/tools/moon_swash_dump/target/wasm/release/build/moon_swash_dump.wasm"))))).
Proof.
  destruct (build_artifact_missing
              {| ROOT := u "/repo";
                 run_process := fun _ _ => quiet [];
                 path_exists := fun tr _ => bool_decide (spawned tr = []);
                 copy2_denied := fun _ => false;
                 path_name := fun _ => u "font.ttf";
                 json_loads := toy_loads |}
              (toy_args toy_texts) (u "/fonts/font.ttf")
              toy_font_rel toy_texts [] toy_h0) as (Hwasm & _).
  - reflexivity.
  - reflexivity.
  - apply Hwasm. reflexivity.
Defined.

(** ** The processes of a run *)

Lemma spawned_cons_spawn cmd tr : spawned (Spawn cmd :: tr) = cmd :: spawned tr.
Proof. reflexivity. Qed.

Lemma spawned_cons_stderr t tr : spawned (Stderr t :: tr) = spawned tr.
Proof. reflexivity. Qed.

Lemma spawned_cons_stdout t tr : spawned (Stdout t :: tr) = spawned tr.
Proof. reflexivity. Qed.

Lemma spawned_nil : spawned [] = [].
Proof. reflexivity. Qed.

(** Computes the commands of a trace built from literals and reports. *)
Ltac spawned_run :=
  repeat first
    [ rewrite spawned_app | rewrite spawned_cons_spawn
    | rewrite spawned_cons_stderr | rewrite spawned_cons_stdout
    | rewrite spawned_failure_report | rewrite spawned_nil ];
  rewrite ?app_nil_r, ?app_nil_l.

Lemma case_raises_spawned (w : World) (args : Args)
    (font font_rel t : pystr) h h' e :
  case w args font font_rel t h = (h', Raise e) ->
  exists tail : list event, h' = h ++ tail /\
    prefix (spawned tail) (runs_of args font_rel t).
Proof.
  unfold case, runs_of. case_split; simpl negb; cbv iota; case_split;
    intros [= <- <-]; rewrite <- ?app_assoc; eexists;
    (split; [try reflexivity|]).
  all: try (by rewrite app_nil_r).
  all: spawned_run.
  all: try (by apply prefix_nil).
  all: by eexists.
Qed.

Lemma for_each_spawned (w : World) (args : Args) (font font_rel : pystr)
    (texts : list pystr) h h' r :
  for_each texts (case w args font font_rel) h = (h', r) ->
  exists tr : list event, h' = h ++ tr /\
    prefix (spawned tr) (flat_map (runs_of args font_rel) texts) /\
    (r = Return () -> spawned tr = flat_map (runs_of args font_rel) texts).
Proof.
  revert h. induction texts as [|t texts IH]; intros h.
  - intros [= <- <-]. exists []. by rewrite app_nil_r.
  - change (flat_map (runs_of args font_rel) (t :: texts))
      with (runs_of args font_rel t ++ flat_map (runs_of args font_rel) texts).
    simpl for_each. io_run.
    destruct (case w args font font_rel t h) as [h1 [[]|e]] eqn:Hc.
    + apply case_returns in Hc as ->. intros Hrest.
      apply IH in Hrest as (tr & -> & Hpre & Hall).
      exists (passing_trace args font_rel t ++ tr).
      split; [by rewrite <- app_assoc|].
      rewrite spawned_app.
      change (spawned (passing_trace args font_rel t))
        with (runs_of args font_rel t).
      split; [by apply prefix_app|]. intros Hr. by rewrite Hall.
    + intros [= <- <-].
      apply case_raises_spawned in Hc as (tail & -> & Hpre).
      exists tail. split; [done|]. split; [|done].
      by apply prefix_app_r.
Qed.

Lemma prologue_returns (w : World) (args : Args) h h0 r :
  prologue w args h = (h0, r) ->
  exists (tr : list event) (f : pystr),
    h0 = h ++ tr /\ spawned tr = [] /\
    written_stdout tr = [] /\ written_stderr tr = [] /\
    (forall f', font args = Some f' -> f = f') /\
    match r with
    | Return x => x = (f, staged w f, texts_of args)
    | Raise e => tr = [] /\ exists t, e = SystemExit (ExitText t)
    end.
Proof.
  intros Hpro.
  destruct (prologue_cases w args h) as [(f & Hf & _)|(Hnone & _ & Hraise)].
  - rewrite (prologue_eq w args f h Hf) in Hpro.
    assert (forall f', font args = Some f' -> f = f') as Hfont.
    { intros f' Hf'. destruct Hf as [Hf|[Hf _]]; congruence. }
    destruct (path_exists w h f).
    + cbv zeta in Hpro. injection Hpro as <- <-.
      eexists _, f. rewrite <- app_assoc. split; [reflexivity|].
      destruct (path_exists w _ _); [by repeat split|].
      destruct (copy2_denied w _); by repeat split.
    + injection Hpro as <- <-. exists [], f. rewrite app_nil_r.
      repeat split; try done. by eexists.
  - rewrite Hraise in Hpro. injection Hpro as <- <-.
    exists [], []. rewrite app_nil_r. repeat split; try done.
    + intros f' Hf'. congruence.
    + by eexists.
Qed.

(** X15.  In every run of [main], however it ends, the processes started
    are an initial part of one fixed plan: the build once, then for each
    text in order the reference producer followed by the candidate, both
    on the same staged font path, text and size.  A run that returns has
    carried out the whole plan. *)
Theorem main_follows_plan (w : World) (args : Args) (h h' : list event)
    (r : result ()) :
  main w args h = (h', r) ->
  exists (tr : list event) (f : pystr),
    h' = h ++ tr
    /\ (forall f', font args = Some f' -> f = f')
    /\ prefix (spawned tr) (planned_runs args (staged w f) (texts_of args))
    /\ (r = Return () ->
        spawned tr = planned_runs args (staged w f) (texts_of args)).
Proof.
  unfold main. rewrite io_bind_unfold.
  destruct (prologue w args h) as [h0 [[[f font_rel] texts]|e]] eqn:Hpro.
  - apply prologue_returns in Hpro
      as (tr0 & f0 & -> & Hsp0 & _ & _ & Hfont & [= -> -> ->]).
    io_run. rewrite build_moon_dump_eq. cbv zeta.
    destruct (returncode _ =? 0)%Z.
    + destruct (negb (path_exists w _ (MOON_DUMP_WASM w))).
      { intros [= <- <-]. exists (tr0 ++ [Spawn MoonBuild]), f0.
        rewrite app_assoc, spawned_app, Hsp0.
        repeat split; try done. by apply prefix_cons, prefix_nil. }
      destruct (negb (path_exists w _ (SPECTEST_WASM w))).
      { intros [= <- <-]. exists (tr0 ++ [Spawn MoonBuild]), f0.
        rewrite app_assoc, spawned_app, Hsp0.
        repeat split; try done. by apply prefix_cons, prefix_nil. }
      intros Hloop. apply for_each_spawned in Hloop as (tr & -> & Hpre & Hall).
      exists (tr0 ++ [Spawn MoonBuild] ++ tr), f0.
      rewrite <- !app_assoc, !spawned_app, Hsp0.
      repeat split; try done.
      * by apply prefix_cons.
      * intros Hr. simpl. unfold planned_runs. by rewrite Hall.
    + intros [= <- <-].
      exists (tr0 ++ Spawn MoonBuild :: failure_report
                (run_process w (h ++ tr0) MoonBuild)
                (u "moon build (tools/moon_swash_dump)")), f0.
      rewrite <- app_assoc. repeat split; try done.
      rewrite spawned_app, Hsp0, spawned_cons_spawn, spawned_failure_report.
      by apply prefix_cons, prefix_nil.
  - apply prologue_returns in Hpro
      as (tr0 & f0 & -> & Hsp0 & _ & _ & Hfont & -> & _).
    intros [= <- <-]. exists [], f0.
    repeat split; try done. apply prefix_nil.
Qed.

Lemma main_follows_plan_witness :
  main (toy_world (quiet [])) (toy_args toy_texts) []
  = (toy_h2, Raise (SystemExit (ExitCode 1)))
  /\ exists (tr : list event) (f : pystr),
       toy_h2 = [] ++ tr /\
       prefix (spawned tr)
         (planned_runs (toy_args toy_texts)
            (staged (toy_world (quiet [])) f) toy_texts).
Proof.
  assert (main (toy_world (quiet [])) (toy_args toy_texts) []
          = (toy_h2, Raise (SystemExit (ExitCode 1)))) as H
    by (by vm_compute).
  split; [exact H|].
  destruct (main_follows_plan _ _ _ _ _ H) as (tr & f & Htr & _ & Hpre & _).
  by exists tr, f.
Defined.

(** ** What exit status 0 means *)

Lemma case_returns_matches (w : World) (args : Args)
    (font font_rel t : pystr) h h' :
  case w args font font_rel t h = (h', Return ()) ->
  case_matches w args font_rel t h.
Proof.
  unfold case. case_split; simpl negb; cbv iota; case_split;
    intros [= <-].
  all: repeat match goal with
         | H : negb _ = false |- _ => apply negb_false_iff in H
         | H : (_ =? _)%Z = true |- _ => apply Z.eqb_eq in H
         end.
  all: try congruence.
  all: match goal with
       | H : _cmp _ _ _ _ = Return (true, ?m) |- _ =>
           assert (m = Empty) as -> by exact (cmp_shape _ _ _ _ _ _ H)
       end.
  all: unfold case_matches, producers_ok; do 4 eexists;
    repeat split; eauto.
Qed.

Lemma for_each_return_all {A : Type} (body : A -> io ()) xs h h' :
  for_each xs body h = (h', Return ()) ->
  forall x, x ∈ xs -> exists h1 h2, body x h1 = (h2, Return ()).
Proof.
  revert h. induction xs as [|y xs IH]; intros h; simpl.
  - intros _ x Hx. by apply elem_of_nil in Hx.
  - io_run. destruct (body y h) as [hy [[]|ey]] eqn:Hy; [|done].
    intros Hrest x Hx. apply elem_of_cons in Hx as [->|Hx]; [eauto|].
    by eapply IH.
Qed.

Lemma for_each_raise_some {A : Type} (body : A -> io ()) xs h h' e :
  for_each xs body h = (h', Raise e) ->
  exists x h1, x ∈ xs /\ body x h1 = (h', Raise e).
Proof.
  revert h. induction xs as [|y xs IH]; intros h; simpl; [done|].
  io_run. destruct (body y h) as [hy [[]|ey]] eqn:Hy.
  - intros Hrest. apply IH in Hrest as (x & h1 & Hx & Hbody).
    exists x, h1. split; [by right|done].
  - intros [= <- <-]. exists y, h. split; [left|done].
Qed.

Lemma main_raise_status (w : World) (args : Args) h h' e :
  main w args h = (h', Raise e) -> exit_status (@Raise () e) <> 0.
Proof.
  unfold main. rewrite io_bind_unfold.
  destruct (prologue w args h) as [h0 [[[f font_rel] texts]|e0]] eqn:Hpro.
  - io_run. rewrite build_moon_dump_eq. cbv zeta.
    destruct (returncode _ =? 0)%Z eqn:Hrc.
    + destruct (negb (path_exists w _ (MOON_DUMP_WASM w)));
        [by intros [= <- <-]|].
      destruct (negb (path_exists w _ (SPECTEST_WASM w)));
        [by intros [= <- <-]|].
      intros Hloop. apply for_each_raise_some in Hloop as (t & h1 & _ & Hc).
      by apply case_raises in Hc as [Hstatus _].
    + intros [= <- <-]. simpl. by apply Z.eqb_neq.
  - apply prologue_returns in Hpro as (tr & f & _ & _ & _ & _ & _ & _ & t & ->).
    by intros [= <- <-].
Qed.

Lemma written_stderr_app tr1 tr2 :
  written_stderr (tr1 ++ tr2) = written_stderr tr1 ++ written_stderr tr2.
Proof. apply omap_app. Qed.

Lemma written_stderr_passing args font_rel (texts : list pystr) :
  written_stderr (flat_map (passing_trace args font_rel) texts) = [].
Proof. induction texts as [|t texts IH]; [done|exact IH]. Qed.

(** X16.  Exit status 0 is earned: when [main] exits with status 0 it has
    returned, every text of the suite has had both producers exit with 0,
    both outputs parsed and the two documents compared equal, stdout holds
    one [OK] line per text in order, and nothing went to stderr. *)
Theorem main_exit_zero (w : World) (args : Args) (h : list event) :
  exit_status (main w args h).2 = 0 ->
  exists (tr : list event) (f : pystr),
    main w args h = (h ++ tr, Return ())
    /\ (forall f', font args = Some f' -> f = f')
    /\ (forall t, t ∈ texts_of args ->
          exists h_t, case_matches w args (staged w f) t h_t)
    /\ written_stdout tr = OkText <$> texts_of args
    /\ written_stderr tr = [].
Proof.
  destruct (main w args h) as [h' [[]|e]] eqn:Hmain.
  2: { intros Hs. by apply main_raise_status in Hmain. }
  intros _. revert Hmain. unfold main. rewrite io_bind_unfold.
  destruct (prologue w args h) as [h0 [[[f font_rel] texts]|e0]] eqn:Hpro;
    [|done].
  apply prologue_returns in Hpro
    as (tr0 & f0 & -> & _ & Hout0 & Herr0 & Hfont & [= -> -> ->]).
  io_run. rewrite build_moon_dump_eq. cbv zeta.
  destruct (returncode _ =? 0)%Z; [|done].
  destruct (negb (path_exists w _ (MOON_DUMP_WASM w))); [done|].
  destruct (negb (path_exists w _ (SPECTEST_WASM w))); [done|].
  intros Hloop.
  pose proof (for_each_return_all _ _ _ _ Hloop) as Hall.
  apply (for_each_return_trace _ (passing_trace args (staged w f0))) in Hloop
    as ->; [|intros ???; apply case_returns].
  exists (tr0 ++ [Spawn MoonBuild] ++
          flat_map (passing_trace args (staged w f0)) (texts_of args)), f0.
  split; [by rewrite <- !app_assoc|]. split; [done|]. split; [|split].
  - intros t Ht. destruct (Hall t Ht) as (h1 & h2 & Hc).
    exists h1. by eapply case_returns_matches.
  - rewrite !written_stdout_app, Hout0, written_stdout_passing. reflexivity.
  - rewrite !written_stderr_app, Herr0, written_stderr_passing. reflexivity.
Qed.

Lemma main_exit_zero_witness :
  exit_status (main (toy_world (quiet [])) (toy_args [u "a"; u "c"]) []).2 = 0
  /\ exists (tr : list event) (f : pystr),
       main (toy_world (quiet [])) (toy_args [u "a"; u "c"]) []
       = ([] ++ tr, Return ())
       /\ written_stdout tr = [OkText (u "a"); OkText (u "c")].
Proof.
  assert (exit_status
            (main (toy_world (quiet [])) (toy_args [u "a"; u "c"]) []).2 = 0)
    as H by (by vm_compute).
  split; [exact H|].
  destruct (main_exit_zero _ _ _ H) as (tr & f & Hmain & _ & _ & Hout & _).
  by exists tr, f.
Defined.

(** ** The report of a mismatch (lines 216-225) *)

(** X17.  When both outputs parse and the comparator reports a mismatch,
    the case writes on stderr the line that names the text, the size and
    the font as the user gave it, then the comparator's message, whose
    path starts at the root [$]; it writes nothing on stdout and raises
    [SystemExit(1)]. *)
Theorem mismatch_report (w : World) (args : Args) (font font_rel t : pystr)
    (h : list event) (rust_out moon_out : pystr) (r m : doc)
    (msg : message) :
  producers_ok w args font_rel t h rust_out moon_out ->
  json_loads w rust_out = inr r -> json_loads w moon_out = inr m ->
  _cmp r m (tol args) (u "$") = Return (false, msg) ->
  case w args font font_rel t h
  = (h ++ (Spawn <$> runs_of args font_rel t) ++
          [Stderr (MismatchFor t (size args) font); Stderr (Line msg)] ++
          dump_report args rust_out moon_out,
     Raise (SystemExit (ExitCode 1)))
  /\ (exists suffix, message_path msg = Some (u "$" ++ suffix))
  /\ written_stdout (dump_report args rust_out moon_out) = [].
Proof.
  intros Hok Hr Hm Hcmp. split; [|split].
  - by rewrite (case_mismatches_raises w args font font_rel t h msg
                  rust_out moon_out r m).
  - exact (cmp_shape _ _ _ _ _ _ Hcmp).
  - unfold dump_report. by destruct (dump args).
Qed.

Lemma mismatch_report_witness :
  case (toy_world (quiet [])) (toy_args toy_texts) (u "/fonts/font.ttf")
    toy_font_rel (u "b") toy_h1
  = (toy_h2, Raise (SystemExit (ExitCode 1))).
Proof.
  destruct (mismatch_report (toy_world (quiet [])) (toy_args toy_texts)
              (u "/fonts/font.ttf") toy_font_rel (u "b") toy_h1
              (u "1") (u "2") (DInt 1) (DInt 2)
              (NumberMismatch (u "$") (DInt 1) (DInt 2) f_0_02))
    as (Hcase & _).
  - repeat split.
  - reflexivity.
  - reflexivity.
  - reflexivity.
  - rewrite Hcase. reflexivity.
Defined.
